(** * Agent messages: envelope, decorators and the load/dump hooks

    A shallow embedding of [aries_cloudagent/messaging/agent_message.py]:
    the [AgentMessage] base class (message id, decorator set, field
    signatures, thread correlation) and the [AgentMessageSchema] hooks that
    run before and after the field schema on load and on dump.

    Python dictionaries are insertion-ordered and the order of the dumped
    wire map is part of the behaviour, so a dictionary is an association
    list; key uniqueness is the well-formedness predicate [Dict.wf].
    Exceptions are values of [exn]; a computation that may raise returns
    [result]. *)

From Stdlib Require Import Ascii ZArith.
From stdpp Require Import base option list strings.

Open Scope string_scope.
Open Scope list_scope.

(** ** Exceptions and results *)

Inductive exn : Type :=
  | TypeError (msg : string)
  | AttributeError (name : string)
  | ValidationError (msg : string)
  | BaseModelError (msg : string)
  | KeyError (key : string).

Inductive result (A : Type) : Type :=
  | Ok (a : A)
  | Raise (e : exn).
Arguments Ok {A} a.
Arguments Raise {A} e.

Definition rbind {A B : Type} (m : result A) (k : A → result B) : result B :=
  match m with
  | Ok a => k a
  | Raise e => Raise e
  end.

Notation "'do' x <- m ; k" := (rbind m (fun x => k))
  (at level 10, x pattern, m at level 100, k at level 200).

Definition raises {A : Type} (m : result A) : Prop := ∃ e, m = Raise e.

(** ** Ordered dictionaries with string keys *)

Module Dict.
Section dict.
Context {V : Type}.

Definition t : Type := list (string * V).

Definition keys (d : t) : list string := d.*1.

(** [d.get(k)] *)
Fixpoint get (k : string) (d : t) : option V :=
  match d with
  | [] => None
  | (k', v) :: d' => if decide (k = k') then Some v else get k d'
  end.

(** [k in d] *)
Definition mem (k : string) (d : t) : bool := bool_decide (k ∈ keys d).

(** [d[k] = v]: an existing key keeps its position, a new key goes last. *)
Fixpoint set (k : string) (v : V) (d : t) : t :=
  match d with
  | [] => [(k, v)]
  | (k', v') :: d' =>
      if decide (k = k') then (k, v) :: d' else (k', v') :: set k v d'
  end.

(** The dictionary without the key [k]: what [del d[k]] and [d.pop(k)]
    leave behind. *)
Definition remove (k : string) (d : t) : t :=
  filter (λ kv, kv.1 ≠ k) d.

(** [del d[k]]: raises [KeyError] when the key is absent. *)
Definition del (k : string) (d : t) : result t :=
  if mem k d then Ok (remove k d) else Raise (KeyError k).

(** [d.update(d')] *)
Definition update (d d' : t) : t :=
  foldl (λ acc kv, set kv.1 kv.2 acc) d d'.

(** Keys of a dictionary are pairwise distinct. *)
Definition wf (d : t) : Prop := NoDup (keys d).
End dict.
Arguments t : clear implicits.
End Dict.

(** ** Python truthiness of an optional string *)

(** [None] and the empty string are falsy. *)
Definition truthy (o : option string) : bool :=
  match o with
  | Some s => bool_decide (s ≠ "")
  | None => false
  end.

(** ** Collaborators defined outside [agent_message.py]

    The decorator models, the wallet and the wire values live in other
    modules of the package.  The message code only constructs thread
    decorators, reads their [thid] and [pthid], and calls [create],
    [verify], [decode], [serialize] and [signer] on signature decorators;
    these are the operations of the interface below.  [timestamp] is an
    optional integer. *)

Class Models := {
  Value : Type;
  Decorator : Type;
  Wallet : Type;
  (** [ThreadDecorator(thid=..., pthid=...)] and its two attributes *)
  ThreadDecorator : option string → option string → Decorator;
  thid : Decorator → option string;
  pthid : Decorator → option string;
  (** [SignatureDecorator.create(value, signer, wallet, timestamp)] *)
  create : Value → string → Wallet → option Z → Decorator;
  (** [sig.signer], [sig.verify(wallet)], [sig.decode()], [sig.serialize()] *)
  signer : Decorator → string;
  verify : Decorator → Wallet → bool;
  decode : Decorator → Value * Z;
  serialize : Decorator → Value;
  (** the decorator set rebuilding a decorator of a given kind from its
      wire value *)
  deserialize : string → Value → Decorator;
}.

(** ** The decorator set *)

Module DecoratorSet.
Section decorator_set.
Context `{Models}.

(** Modelled from the spec: the [DecoratorSet] class is not part of
    [agent_message.py].  It holds the global decorators by name and, per
    field name, the decorators of that field by kind. *)
Record t : Type := mk {
  decorators : Dict.t Decorator;
  fields : Dict.t (Dict.t Decorator);
}.

(** Modelled from the spec: [DecoratorSet()], the empty decorator set. *)
Definition new : t := mk [] [].

(** Modelled from the spec: the set is itself the mapping of the global
    decorators, with the per-field maps held beside it.  As a Python
    mapping it is falsy when it has no entry, that is when it holds no
    global decorator, whatever its per-field maps hold. *)
Definition truthy (self : t) : bool :=
  match decorators self with
  | [] => false
  | _ :: _ => true
  end.

(** Modelled from the spec: [copy()], a deep and independent snapshot.
    Values are immutable here, so the snapshot is the value itself. *)
Definition copy (self : t) : t := self.

(** Modelled from the spec: [field(name)] returns the per-field map of
    [name], creating an empty one when the field is absent. *)
Definition field (name : string) (self : t) : Dict.t Decorator * t :=
  match Dict.get name (fields self) with
  | Some f => (f, self)
  | None => ([], mk (decorators self) (Dict.set name [] (fields self)))
  end.

(** Modelled from the spec: the per-field map that [field(name)] hands
    out is mutable; [set_field] stores back the map after such an in-place
    update. *)
Definition set_field (name : string) (f : Dict.t Decorator) (self : t) : t :=
  mk (decorators self) (Dict.set name f (fields self)).

(** Modelled from the spec: [get(name)], the accessor of the global
    decorators. *)
Definition get (name : string) (self : t) : option Decorator :=
  Dict.get name (decorators self).

(** Modelled from the spec: [set(name, value)]. *)
Definition set (name : string) (value : Decorator) (self : t) : t :=
  mk (Dict.set name value (decorators self)) (fields self).

(** Modelled from the spec: the reserved marker of decorator wire keys. *)
Definition prefix : string := "~".

(** Modelled from the spec: a wire key split at its first marker into the
    optional field name before it and the decorator kind after it; [None]
    when the key holds no marker. *)
Fixpoint split_key (key : string) : option (string * string) :=
  match key with
  | EmptyString => None
  | String c rest =>
      if decide (c = "~"%char) then Some (EmptyString, rest)
      else match split_key rest with
           | Some (a, b) => Some (String c a, b)
           | None => None
           end
  end.

(** Modelled from the spec: whether a wire key holds the marker. *)
Definition has_marker (key : string) : bool :=
  match split_key key with Some _ => true | None => false end.

(** Modelled from the spec: [toWireMap()] rebuilds the decorator wire
    keys, the global decorators first and the per-field decorators
    after them. *)
Definition to_dict (self : t) : Dict.t Value :=
  let globals :=
    (λ kv : string * Decorator, (prefix +:+ kv.1, serialize kv.2))
      <$> decorators self in
  let per_field :=
    flat_map
      (λ fd : string * Dict.t Decorator,
         (λ kv : string * Decorator,
            (fd.1 +:+ prefix +:+ kv.1, serialize kv.2)) <$> fd.2)
      (fields self) in
  Dict.update [] (globals ++ per_field).

(** Modelled from the spec: [extractDecorators(rawMap)].  A key with the
    marker and no field qualifier is a global decorator, a key with a
    field name before the marker is a decorator of that field, every
    other key passes through to the plain map.  A marked key with no
    decorator kind after the marker cannot be parsed and is a validation
    fault. *)
Fixpoint extract_loop (message : Dict.t Value) (remain : Dict.t Value)
    (self : t) : result (Dict.t Value * t) :=
  match message with
  | [] => Ok (remain, self)
  | (key, value) :: rest =>
      match split_key key with
      | None => extract_loop rest (Dict.set key value remain) self
      | Some (field_name, kind) =>
          if decide (kind = "") then
            Raise (ValidationError ("Invalid decorator key: " +:+ key))
          else if decide (field_name = "") then
            extract_loop rest remain (set kind (deserialize kind value) self)
          else
            let '(f, self') := field field_name self in
            extract_loop rest remain
              (set_field field_name
                 (Dict.set kind (deserialize kind value) f) self')
      end
  end.

(** Modelled from the spec: [extract_decorators(message)] starts from an
    empty plain map and adds to the decorators that [self] holds. *)
Definition extract_decorators (self : t) (message : Dict.t Value)
    : result (Dict.t Value * t) :=
  extract_loop message [] self.
End decorator_set.
Arguments t {_}.
End DecoratorSet.

(** ** [AgentMessage] *)

Module AgentMessage.
Section agent_message.
Context `{Models}.

(** An attribute of a [Meta] class.  A subclass that nests a [class Meta]
    of its own hides the [Meta] of [AgentMessage]: unless the nested class
    extends it, only the attributes that the nested class declares can be
    read, and reading another one raises [AttributeError].  A subclass
    without a nested [Meta] reads the three [None] of [AgentMessage.Meta]. *)
Inductive attribute : Type :=
  | Undeclared
  | Declared (value : option string).

(** [self.Meta.<name>] *)
Definition read (name : string) (a : attribute) : result (option string) :=
  match a with
  | Declared value => Ok value
  | Undeclared => Raise (AttributeError name)
  end.

(** [class Meta] of a message class. *)
Record Meta : Type := mkMeta {
  handler_class : attribute;
  schema_class : attribute;
  message_type : attribute;
}.

(** A message kind: a subclass of [AgentMessage], with its class name and
    its [Meta]. *)
Record kind : Type := mkKind {
  class_name : string;
  meta : Meta;
}.

(** Defining a message kind is a plain class statement: neither
    [AgentMessage] nor its [Meta] runs any code when a subclass is
    declared. *)
Definition define_kind (name : string) (m : Meta) : result kind :=
  Ok (mkKind name m).

(** An instance.  [attrs] are the attributes set by the subclass, the
    business fields of the message. *)
Record t : Type := mk {
  class_of : kind;
  _message_id : string;
  _message_new_id : bool;
  _message_decorators : DecoratorSet.t;
  attrs : Dict.t Value;
}.

(** Assignments to [self._message_id] and to [self._message_decorators]. *)
Definition with_id (self : t) (val : string) : t :=
  mk (class_of self) val (_message_new_id self) (_message_decorators self)
     (attrs self).

Definition with_decorators (self : t) (value : DecoratorSet.t) : t :=
  mk (class_of self) (_message_id self) (_message_new_id self) value
     (attrs self).

(** Modelled from the spec: [BaseModel.__init__], in [models/base.py],
    which [super(AgentMessage, self).__init__()] runs.  A model class
    with no schema class bound cannot be instantiated: the missing
    model/schema binding of the configuration faults. *)
Definition BaseModel__init__ (cls : kind) : result unit :=
  do schema <- read "schema_class" (schema_class (meta cls));
  if negb (truthy schema) then
    Raise (TypeError ("Can't instantiate abstract class " +:+ class_name cls
                      +:+ " with no schema_class"))
  else Ok ().

(** [_decorators or DecoratorSet()] *)
Definition decorators_or_new (_decorators : option DecoratorSet.t)
    : DecoratorSet.t :=
  match _decorators with
  | Some decorators =>
      if DecoratorSet.truthy decorators then decorators else DecoratorSet.new
  | None => DecoratorSet.new
  end.

(** [__init__(self, _id=None, _decorators=None)].  [uuid4] is the value
    that [str(uuid.uuid4())] yields for this call; [attributes] are the
    attributes the subclass sets.  The initializer of the base class runs
    first.  A decorator set that is passed in is kept when it is truthy
    and is replaced by [DecoratorSet()] otherwise.  The type check comes
    last, as in the source; when it raises, the instance is discarded. *)
Definition __init__ (cls : kind) (attributes : Dict.t Value)
    (uuid4 : string) (_id : option string)
    (_decorators : option DecoratorSet.t) : result t :=
  do _ <- BaseModel__init__ cls;
  let '(message_id, new_id) :=
    if truthy _id then (default "" _id, false) else (uuid4, true) in
  let decs := decorators_or_new _decorators in
  do declared_type <- read "message_type" (message_type (meta cls));
  if negb (truthy declared_type) then
    Raise (TypeError ("Can't instantiate abstract class " +:+ class_name cls
                      +:+ " with no message_type"))
  else Ok (mk cls message_id new_id decs attributes).

(** The properties [_type], [_id] and [_decorators] with the setters of
    the last two.  [_type] reads [self.Meta.message_type]. *)
Definition _type (self : t) : result (option string) :=
  read "message_type" (message_type (meta (class_of self))).

Definition _id (self : t) : string := _message_id self.

Definition _id_setter (self : t) (val : string) : t := with_id self val.

Definition _decorators (self : t) : DecoratorSet.t :=
  _message_decorators self.

Definition _decorators_setter (self : t) (value : DecoratorSet.t) : t :=
  with_decorators self value.

(** [get_signature]: [self._decorators.field(field_name).get("sig")].
    The message is returned as well, since [field] creates the per-field
    map when it is absent. *)
Definition get_signature (self : t) (field_name : string)
    : option Decorator * t :=
  let '(f, decs) := DecoratorSet.field field_name (_decorators self) in
  (Dict.get "sig" f, with_decorators self decs).

(** [set_signature]: [self._decorators.field(field_name)["sig"] = signature] *)
Definition set_signature (self : t) (field_name : string)
    (signature : Decorator) : t :=
  let '(f, decs) := DecoratorSet.field field_name (_decorators self) in
  with_decorators self
    (DecoratorSet.set_field field_name (Dict.set "sig" signature f) decs).

(** [getattr(self, field_name, None)] is Python's attribute lookup.  It
    finds whatever the instance, its class and the base classes provide
    under that name: the attributes set by the subclass, but also the
    properties and methods of [AgentMessage] and of [BaseModel], which is
    outside [agent_message.py].  The lookup is therefore a parameter:
    [getattr self name] is the value found, and [None] when there is no
    such attribute or when its value is [None]. *)
Variable getattr : t → string → option Value.

(** [sign_field] *)
Definition sign_field (self : t) (field_name signer_verkey : string)
    (wallet : Wallet) (timestamp : option Z) : result Decorator * t :=
  match getattr self field_name with
  | None =>
      (Raise (BaseModelError
                (class_name (class_of self)
                 +:+ " field has no value for signature: " +:+ field_name)),
       self)
  | Some value =>
      let sig := create value signer_verkey wallet timestamp in
      (Ok sig, set_signature self field_name sig)
  end.

(** [verify_signed_field].  A stored decorator object is truthy, so
    [not sig] holds exactly when [get] found nothing. *)
Definition verify_signed_field (self : t) (field_name : string)
    (wallet : Wallet) (signer_verkey : option string) : result string * t :=
  let '(sig, self') := get_signature self field_name in
  (match sig with
   | None =>
       Raise (BaseModelError ("Missing field signature: " +:+ field_name))
   | Some sig =>
       if negb (verify sig wallet) then
         Raise (BaseModelError
                  ("Field signature verification failed: " +:+ field_name))
       else
         match signer_verkey with
         | Some verkey =>
             if bool_decide (signer sig ≠ verkey) then
               Raise (BaseModelError
                        ("Signer verkey of signature does not match: "
                         +:+ field_name))
             else Ok (signer sig)
         | None => Ok (signer sig)
         end
   end, self').

(** The loop of [verify_signatures] over [fields.values()].  Besides the
    answer it returns the signatures handed to the wallet, in call
    order. *)
Fixpoint verify_loop (wallet : Wallet) (values : list (Dict.t Decorator))
    : bool * list Decorator :=
  match values with
  | [] => (true, [])
  | field :: rest =>
      match Dict.get "sig" field with
      | Some sig =>
          if negb (verify sig wallet) then (false, [sig])
          else let '(b, calls) := verify_loop wallet rest in
               (b, sig :: calls)
      | None => verify_loop wallet rest
      end
  end.

Definition verify_signatures_calls (self : t) (wallet : Wallet)
    : bool * list Decorator :=
  verify_loop wallet (DecoratorSet.fields (_decorators self)).*2.

Definition verify_signatures (self : t) (wallet : Wallet) : bool :=
  (verify_signatures_calls self wallet).1.

(** [_thread]: [self._decorators.get("thread")] *)
Definition _thread (self : t) : option Decorator :=
  DecoratorSet.get "thread" (_decorators self).

(** [_thread] setter: [self._decorators["thread"] = val] *)
Definition _thread_setter (self : t) (val : Decorator) : t :=
  with_decorators self (DecoratorSet.set "thread" val (_decorators self)).

(** [_thread_id]: the [thid] of the thread decorator when there is one and
    it is truthy, the message id otherwise. *)
Definition _thread_id (self : t) : string :=
  match _thread self with
  | Some thread =>
      if truthy (thid thread) then default "" (thid thread)
      else _message_id self
  | None => _message_id self
  end.

(** [assign_thread_id]: [self._thread = ThreadDecorator(thid=thid, pthid=pthid)] *)
Definition assign_thread_id (self : t) (thid pthid : option string) : t :=
  _thread_setter self (ThreadDecorator thid pthid).

(** [assign_thread_from]:
    [thid = thread and thread.thid or msg._message_id] and
    [pthid = thread and thread.pthid]. *)
Definition assign_thread_from (self : t) (msg : option t) : t :=
  match msg with
  | Some msg =>
      let thread := _thread msg in
      let thid' :=
        match thread with
        | Some th =>
            if truthy (thid th) then thid th else Some (_message_id msg)
        | None => Some (_message_id msg)
        end in
      let pthid' :=
        match thread with
        | Some th => pthid th
        | None => None
        end in
      assign_thread_id self thid' pthid'
  | None => self
  end.

(** The operations a caller can apply to a constructed message. *)
Inductive operation : Type :=
  | Set_id (val : string)
  | Set_decorators (value : DecoratorSet.t)
  | Get_signature (field_name : string)
  | Set_signature (field_name : string) (signature : Decorator)
  | Sign_field (field_name signer_verkey : string) (wallet : Wallet)
      (timestamp : option Z)
  | Verify_signed_field (field_name : string) (wallet : Wallet)
      (signer_verkey : option string)
  | Verify_signatures (wallet : Wallet)
  | Set_thread (val : Decorator)
  | Assign_thread_from (msg : option t)
  | Assign_thread_id (thid pthid : option string).

(** The message after an operation, whether it returned or raised. *)
Definition apply (o : operation) (self : t) : t :=
  match o with
  | Set_id val => _id_setter self val
  | Set_decorators value => _decorators_setter self value
  | Get_signature f => (get_signature self f).2
  | Set_signature f s => set_signature self f s
  | Sign_field f k w ts => (sign_field self f k w ts).2
  | Verify_signed_field f w k => (verify_signed_field self f w k).2
  | Verify_signatures w => self
  | Set_thread val => _thread_setter self val
  | Assign_thread_from msg => assign_thread_from self msg
  | Assign_thread_id a b => assign_thread_id self a b
  end.
End agent_message.
Arguments t {_}.
Arguments operation {_}.
End AgentMessage.

(** ** [AgentMessageSchema] *)

Module AgentMessageSchema.
Section schema.
Context `{Models}.

(** [class Meta] of a schema class. *)
Record Meta : Type := mkMeta {
  model_class : option string;
  signed_fields : option (list string);
}.

(** A schema class: a subclass of [AgentMessageSchema], with its class
    name and its [Meta]. *)
Record kind : Type := mkKind {
  class_name : string;
  meta : Meta;
}.

(** A schema instance with the three attributes its [__init__] creates. *)
Record t : Type := mk {
  class_of : kind;
  _decorators : DecoratorSet.t;
  _decorators_dict : option (Dict.t Value);
  _signatures : Dict.t Value;
}.

(** [__init__(self, *args, **kwargs)] *)
Definition __init__ (cls : kind) : result t :=
  if negb (truthy (model_class (meta cls))) then
    Raise (TypeError ("Can't instantiate abstract class " +:+ class_name cls
                      +:+ " with no model_class"))
  else Ok (mk cls DecoratorSet.new None []).

(** [resolve_meta_property(self, "signed_fields") or ()] *)
Definition expect_fields (self : t) : list string :=
  default [] (signed_fields (meta (class_of self))).

(** *** Load side *)

(** The first loop of [extract_decorators], over
    [self._decorators.fields.items()]. *)
Fixpoint found_loop (expect : list string)
    (fields : Dict.t (Dict.t Decorator))
    (found_signatures : Dict.t Decorator) (processed : Dict.t Value)
    : result (Dict.t Decorator * Dict.t Value) :=
  match fields with
  | [] => Ok (found_signatures, processed)
  | (field_name, field) :: rest =>
      match Dict.get "sig" field with
      | Some sig =>
          if bool_decide (field_name ∉ expect) then
            Raise (ValidationError
                     ("Encountered unexpected field signature: "
                      +:+ field_name))
          else if Dict.mem field_name processed then
            Raise (ValidationError
                     ("Message defines both field signature and value: "
                      +:+ field_name))
          else
            found_loop expect rest
              (Dict.set field_name sig found_signatures)
              (Dict.set field_name (decode sig).1 processed)
      | None => found_loop expect rest found_signatures processed
      end
  end.

(** The second loop, over [expect_fields]. *)
Fixpoint expect_loop (expect : list string)
    (found_signatures : Dict.t Decorator) : result unit :=
  match expect with
  | [] => Ok ()
  | field_name :: rest =>
      if negb (Dict.mem field_name found_signatures) then
        Raise (ValidationError ("Expected field signature: " +:+ field_name))
      else expect_loop rest found_signatures
  end.

(** The signed-fields check of [extract_decorators], on the plain map and
    the decorator set that the extraction produced. *)
Definition check_signed_fields (expect : list string)
    (decorators : DecoratorSet.t) (processed : Dict.t Value)
    : result (Dict.t Value) :=
  do (found_signatures, processed') <-
    found_loop expect (DecoratorSet.fields decorators) [] processed;
  do _ <- expect_loop expect found_signatures;
  Ok processed'.

(** [@pre_load extract_decorators(self, data)] *)
Definition extract_decorators (self : t) (data : Dict.t Value)
    : result (Dict.t Value * t) :=
  do (processed, decorators) <-
    DecoratorSet.extract_decorators (_decorators self) data;
  let self' :=
    mk (class_of self) decorators (_decorators_dict self) (_signatures self) in
  do processed' <- check_signed_fields (expect_fields self) decorators processed;
  Ok (processed', self').

(** [@post_load populate_decorators(self, obj)] *)
Definition populate_decorators (self : t) (obj : AgentMessage.t)
    : AgentMessage.t :=
  AgentMessage._decorators_setter obj (_decorators self).

(** *** Dump side *)

(** The loop of [check_dump_decorators] over the fields of the snapshot:
    each signature is serialized into the side table and deleted from
    its per-field map. *)
Fixpoint signatures_loop (fields : Dict.t (Dict.t Decorator))
    (signatures : Dict.t Value)
    : Dict.t Value * Dict.t (Dict.t Decorator) :=
  match fields with
  | [] => (signatures, [])
  | (name, field) :: rest =>
      match Dict.get "sig" field with
      | Some sig =>
          let '(signatures', rest') :=
            signatures_loop rest (Dict.set name (serialize sig) signatures) in
          (signatures', (name, Dict.remove "sig" field) :: rest')
      | None =>
          let '(signatures', rest') := signatures_loop rest signatures in
          (signatures', (name, field) :: rest')
      end
  end.

(** The loop of [check_dump_decorators] over [expect_fields]. *)
Fixpoint missing_loop (expect : list string) (signatures : Dict.t Value)
    : result unit :=
  match expect with
  | [] => Ok ()
  | field_name :: rest =>
      if negb (Dict.mem field_name signatures) then
        Raise (BaseModelError ("Missing signature for field: " +:+ field_name))
      else missing_loop rest signatures
  end.

(** [@pre_dump check_dump_decorators(self, obj)].  When the hook returns,
    the schema holds the wire map of the snapshot and the side table of
    serialized signatures; the schema instance is not followed further
    when the hook raises. *)
Definition check_dump_decorators (self : t) (obj : AgentMessage.t)
    : result (AgentMessage.t * t) :=
  let decorators := DecoratorSet.copy (AgentMessage._decorators obj) in
  let '(signatures, fields') :=
    signatures_loop (DecoratorSet.fields decorators) [] in
  let decorators' :=
    DecoratorSet.mk (DecoratorSet.decorators decorators) fields' in
  let self' :=
    mk (class_of self) (_decorators self)
       (Some (DecoratorSet.to_dict decorators')) signatures in
  do _ <- missing_loop (expect_fields self) (_signatures self');
  Ok (obj, self').

(** The loop of [dump_decorators] over [("@type", "@id")]:
    [if key in data: result[key] = data.pop(key)]. *)
Fixpoint reserved_loop (reserved : list string)
    (result data : Dict.t Value) : Dict.t Value * Dict.t Value :=
  match reserved with
  | [] => (result, data)
  | key :: rest =>
      match Dict.get key data with
      | Some v => reserved_loop rest (Dict.set key v result) (Dict.remove key data)
      | None => reserved_loop rest result data
      end
  end.

(** [@post_dump dump_decorators(self, data)].  [_decorators_dict] is
    [None] until the pre-dump hook has run, and updating from [None]
    raises. *)
Definition dump_decorators (self : t) (data : Dict.t Value)
    : result (Dict.t Value) :=
  let '(result, data') := reserved_loop ["@type"; "@id"] [] data in
  match _decorators_dict self with
  | None => Raise (TypeError "'NoneType' object is not iterable")
  | Some decorators_dict =>
      Ok (Dict.update (Dict.update result decorators_dict) data')
  end.

(** The loop of [replace_signatures] over [self._signatures.items()]:
    [del data[field_name]], then [data["{}~sig".format(field_name)] = sig]. *)
Fixpoint replace_loop (signatures : Dict.t Value) (data : Dict.t Value)
    : result (Dict.t Value) :=
  match signatures with
  | [] => Ok data
  | (field_name, sig) :: rest =>
      do data' <- Dict.del field_name data;
      replace_loop rest (Dict.set (field_name +:+ "~sig") sig data')
  end.

(** [@post_dump replace_signatures(self, data)] *)
Definition replace_signatures (self : t) (data : Dict.t Value)
    : result (Dict.t Value) :=
  replace_loop (_signatures self) data.

(** *** The two pipelines

    The field schema proper (the declared fields [_type], [_id] and the
    fields of the concrete message) is the marshalling core, outside
    [agent_message.py]: [fields_dump] produces the plain map of a message
    and [fields_load] reads the constructor arguments back from a plain
    map, the optional [_id] and the attributes of the subclass. *)
Section pipelines.
Variable fields_dump : AgentMessage.t → result (Dict.t Value).
Variable fields_load :
  Dict.t Value → result (option string * Dict.t Value).

(** Dump: the pre-dump hook, the field schema, then the post-dump
    hooks [dump_decorators] and [replace_signatures], which run in the
    order of their names. *)
Definition dump (self : t) (obj : AgentMessage.t) : result (Dict.t Value) :=
  do (obj', self') <- check_dump_decorators self obj;
  do data <- fields_dump obj';
  do data' <- dump_decorators self' data;
  replace_signatures self' data'.

(** Load: the pre-load hook, the field schema, the construction of the
    message of kind [cls], then the post-load hook. *)
Definition load (self : t) (cls : AgentMessage.kind) (uuid4 : string)
    (data : Dict.t Value) : result AgentMessage.t :=
  do (processed, self') <- extract_decorators self data;
  do (_id, attributes) <- fields_load processed;
  do obj <- AgentMessage.__init__ cls attributes uuid4 _id None;
  Ok (populate_decorators self' obj).
End pipelines.
End schema.
Arguments t {_}.
End AgentMessageSchema.

(** ** Vocabulary of the statements *)

Section vocabulary.
Context `{Models}.
Implicit Types (decorators : DecoratorSet.t)
  (fields : Dict.t (Dict.t Decorator)).

(** The signature stored for a field: the ["sig"] entry of its per-field
    decorators, if the field has any. *)
Definition stored_signature (decorators : DecoratorSet.t)
    (field_name : string) : option Decorator :=
  match Dict.get field_name (DecoratorSet.fields decorators) with
  | Some f => Dict.get "sig" f
  | None => None
  end.

(** The signatures held by a list of per-field maps, in order. *)
Definition signatures_of (values : list (Dict.t Decorator))
    : list Decorator :=
  omap (Dict.get "sig") values.

(** The three validation errors of the pre-load hook: a signature for a
    field outside the policy, *)
Definition unexpected_signature (f : string) : exn :=
  ValidationError ("Encountered unexpected field signature: " +:+ f).

(** a plain value next to the signature of a field, *)
Definition conflicting_value (f : string) : exn :=
  ValidationError ("Message defines both field signature and value: " +:+ f).

(** and no signature for a field of the policy. *)
Definition expected_signature (f : string) : exn :=
  ValidationError ("Expected field signature: " +:+ f).

(** The wire key of the signature of a field: ["{}~sig".format(name)]. *)
Definition sig_key (field_name : string) : string := field_name +:+ "~sig".

(** The names of the fields that hold a signature, in order. *)
Definition signed_names fields : list string :=
  omap (λ nf : string * Dict.t Decorator,
          match Dict.get "sig" nf.2 with
          | Some _ => Some nf.1
          | None => None
          end) fields.

(** The plain keys of a dumped map: its keys other than the two
    reserved ones. *)
Definition plain_keys {V} (data : Dict.t V) : list string :=
  filter (λ k, k ∉ ["@type"; "@id"]) (Dict.keys data).

(** The reserved keys that the plain map holds, in the order in which
    [dump_decorators] moves them to the front. *)
Definition reserved_keys {V} (data : Dict.t V) : list string :=
  filter (λ k, k ∈ Dict.keys data) ["@type"; "@id"].

(** A per-field map with its ["sig"] entry deleted. *)
Definition strip_signature (nf : string * Dict.t Decorator)
    : string * Dict.t Decorator :=
  (nf.1, Dict.remove "sig" nf.2).

(** The snapshot that [check_dump_decorators] serializes: the decorator
    set of the message with every ["sig"] entry deleted. *)
Definition dump_snapshot (decorators : DecoratorSet.t) : DecoratorSet.t :=
  DecoratorSet.mk (DecoratorSet.decorators decorators)
    (strip_signature <$> DecoratorSet.fields decorators).



(** A [Meta] attribute that is declared with a truthy value, *)
Definition declared_truthy (a : AgentMessage.attribute) : bool :=
  match a with
  | AgentMessage.Declared value => truthy value
  | AgentMessage.Undeclared => false
  end.

(** and one that is declared as [None] or as the empty string. *)
Definition declared_falsy (a : AgentMessage.attribute) : bool :=
  match a with
  | AgentMessage.Declared value => negb (truthy value)
  | AgentMessage.Undeclared => false
  end.

(** The two configuration errors of the constructor. *)
Definition no_schema_class (cls : AgentMessage.kind) : exn :=
  TypeError ("Can't instantiate abstract class "
             +:+ AgentMessage.class_name cls +:+ " with no schema_class").

Definition no_message_type (cls : AgentMessage.kind) : exn :=
  TypeError ("Can't instantiate abstract class "
             +:+ AgentMessage.class_name cls +:+ " with no message_type").

(** The instance that the constructor builds when it returns. *)
Definition constructed (cls : AgentMessage.kind) (attributes : Dict.t Value)
    (uuid4 : string) (_id : option string)
    (_decorators : option DecoratorSet.t) : AgentMessage.t :=
  AgentMessage.mk cls
    (match _id with
     | Some supplied => if bool_decide (supplied ≠ "") then supplied else uuid4
     | None => uuid4
     end)
    (negb (truthy _id))
    (AgentMessage.decorators_or_new _decorators)
    attributes.
End vocabulary.

(** ** A concrete instance of the collaborators

    Small stand-ins for the decorator models, used to run the definitions
    on concrete messages.  A signature carries its signer, the value it
    was made from and whether the wallet accepts it. *)

Module Sample.
Inductive value : Type :=
  | Str (s : string)
  | Num (n : Z)
  | Sig (signer : string) (payload : string) (valid : bool)
  | Thread (thid pthid : option string).

Definition value_thid (d : value) : option string :=
  match d with Thread t _ => t | _ => None end.

Definition value_pthid (d : value) : option string :=
  match d with Thread _ p => p | _ => None end.

Definition value_signer (d : value) : string :=
  match d with Sig k _ _ => k | _ => "" end.

Definition value_payload (v : value) : string :=
  match v with Str s => s | Sig _ p _ => p | _ => "" end.

Definition value_verify (d : value) (w : unit) : bool :=
  match d with Sig _ _ valid => valid | _ => false end.

Definition value_decode (d : value) : value * Z :=
  match d with Sig _ p _ => (Str p, 0%Z) | _ => (d, 0%Z) end.

#[export] Instance models : Models := {|
  Value := value;
  Decorator := value;
  Wallet := unit;
  ThreadDecorator := Thread;
  thid := value_thid;
  pthid := value_pthid;
  create := λ v k _ _, Sig k (value_payload v) true;
  signer := value_signer;
  verify := value_verify;
  decode := value_decode;
  serialize := λ d, d;
  deserialize := λ _ v, v;
|}.

(** A message class with a schema class and a type. *)
Definition basic_meta : AgentMessage.Meta :=
  AgentMessage.mkMeta (AgentMessage.Declared None)
    (AgentMessage.Declared (Some "BasicAgentMessageSchema"))
    (AgentMessage.Declared (Some "basic-message")).

Definition basic_kind : AgentMessage.kind :=
  AgentMessage.mkKind "BasicAgentMessage" basic_meta.

(** A message class with a schema class and no type. *)
Definition abstract_meta : AgentMessage.Meta :=
  AgentMessage.mkMeta (AgentMessage.Declared None)
    (AgentMessage.Declared (Some "AbstractMessageSchema"))
    (AgentMessage.Declared None).

Definition abstract_kind : AgentMessage.kind :=
  AgentMessage.mkKind "AbstractMessage" abstract_meta.

(** A message class that declares nothing: it reads the [Meta] of
    [AgentMessage], where the three attributes are [None]. *)
Definition unbound_meta : AgentMessage.Meta :=
  AgentMessage.mkMeta (AgentMessage.Declared None)
    (AgentMessage.Declared None) (AgentMessage.Declared None).

Definition unbound_kind : AgentMessage.kind :=
  AgentMessage.mkKind "UnboundMessage" unbound_meta.

(** The attribute lookup of the sample classes for the names that hold a
    string or a decorator: the properties [_id], [_type], [_thread_id]
    and [_thread] of [AgentMessage], which come before the attributes of
    the instance, then the attributes set by the subclass. *)
Definition getattr (self : AgentMessage.t) (name : string) : option value :=
  if decide (name = "_id") then Some (Str (AgentMessage._id self))
  else if decide (name = "_type") then
    match AgentMessage._type self with
    | Ok (Some type) => Some (Str type)
    | _ => None
    end
  else if decide (name = "_thread_id") then
    Some (Str (AgentMessage._thread_id self))
  else if decide (name = "_thread") then AgentMessage._thread self
  else Dict.get name (AgentMessage.attrs self).

(** A message with id ["m1"], a valid signature by ["K"] on [value], a
    rejected one on [other], and a thread decorator. *)
Definition signed_message : AgentMessage.t :=
  AgentMessage.mk basic_kind "m1" false
    (DecoratorSet.mk
       [("thread", Thread (Some "T") (Some "P"))]
       [("value", [("sig", Sig "K" "v" true)]);
        ("other", [("sig", Sig "K2" "o" false)]);
        ("last", [("sig", Sig "K3" "l" true)])])
    [("value", Str "v"); ("other", Str "o"); ("last", Str "l")].

(** A message without decorators. *)
Definition plain_message : AgentMessage.t :=
  AgentMessage.mk basic_kind "m0" true DecoratorSet.new
    [("content", Str "hello")].
End Sample.

Module SampleSchema.
Import Sample.

(** The business fields that the sample field schema declares. *)
Definition declared : list string := ["value"; "other"; "last"; "content"].

Definition entry {V} (d : Dict.t V) (name : string) : option (string * V) :=
  match Dict.get name d with
  | Some v => Some (name, v)
  | None => None
  end.

(** The sample field schema: [_type] and [_id] under their data keys,
    then the declared fields that the message sets.  A type that is
    [None] or cannot be read is left out. *)
Definition type_entry (obj : AgentMessage.t) : Dict.t value :=
  match AgentMessage._type obj with
  | Ok (Some type) => [("@type", Str type)]
  | _ => []
  end.

Definition fields_dump (obj : AgentMessage.t) : result (Dict.t value) :=
  Ok (type_entry obj
      ++ [("@id", Str (AgentMessage._id obj))]
      ++ omap (entry (AgentMessage.attrs obj)) declared).

Definition fields_load (processed : Dict.t value)
    : result (option string * Dict.t value) :=
  Ok (match Dict.get "@id" processed with
      | Some (Str s) => Some s
      | _ => None
      end,
      omap (entry processed) declared).

Definition schema_kind (policy : option (list string))
    : AgentMessageSchema.kind :=
  AgentMessageSchema.mkKind "BasicAgentMessageSchema"
    (AgentMessageSchema.mkMeta (Some "BasicAgentMessage") policy).

(** A fresh schema instance for a given signed-fields policy. *)
Definition schema (policy : option (list string)) : AgentMessageSchema.t :=
  AgentMessageSchema.mk (schema_kind policy) DecoratorSet.new None [].

(** A message with a valid signature on [value] and nothing else. *)
Definition value_signed_message : AgentMessage.t :=
  AgentMessage.mk basic_kind "m2" false
    (DecoratorSet.mk [] [("value", [("sig", Sig "K" "v" true)])])
    [("value", Str "v"); ("content", Str "hello")].

(** The same message without the attribute that the signature is for. *)
Definition value_missing_message : AgentMessage.t :=
  AgentMessage.mk basic_kind "m3" false
    (DecoratorSet.mk [] [("value", [("sig", Sig "K" "v" true)])])
    [("content", Str "hello")].


(** A wire map that carries [value] as a signature. *)
Definition signed_wire : Dict.t value :=
  [("@type", Str "basic-message"); ("@id", Str "m2");
   ("content", Str "hello"); ("value~sig", Sig "K" "v" true)].

(** What the extraction makes of [signed_wire]. *)
Definition signed_wire_plain : Dict.t value :=
  [("@type", Str "basic-message"); ("@id", Str "m2");
   ("content", Str "hello")].

Definition signed_wire_decorators : DecoratorSet.t :=
  DecoratorSet.mk [] [("value", [("sig", Sig "K" "v" true)])].

(** What the pre-load hook returns for [signed_wire] under the policy
    [("value",)]. *)
Definition signed_wire_processed : Dict.t value :=
  [("@type", Str "basic-message"); ("@id", Str "m2");
   ("content", Str "hello"); ("value", Str "v")].

(** A message as the constructor makes it when no id is supplied and
    [uuid4] yields ["uuid-1"]. *)
Definition hello_attrs : Dict.t value := [("content", Str "hello")].

Definition fresh_message : AgentMessage.t :=
  AgentMessage.mk basic_kind "uuid-1" true DecoratorSet.new hello_attrs.


(** What the field schema dumps for [value_missing_message]. *)
Definition value_missing_plain : Dict.t value :=
  [("@type", Str "basic-message"); ("@id", Str "m3");
   ("content", Str "hello")].

(** What the field schema dumps for [value_signed_message]. *)
Definition value_signed_plain : Dict.t value :=
  [("@type", Str "basic-message"); ("@id", Str "m2");
   ("value", Str "v"); ("content", Str "hello")].

(** What the dump makes of [plain_message] once its id is set to the
    empty string. *)
Definition empty_id_wire : Dict.t value :=
  [("@type", Str "basic-message"); ("@id", Str "");
   ("content", Str "hello")].
End SampleSchema.

(** * Facts about dictionaries *)

Section dict_facts.
Context {V : Type}.
Implicit Types (d : Dict.t V) (k : string) (v : V).

Lemma mem_true k d : Dict.mem k d = true ↔ k ∈ Dict.keys d.
Proof. unfold Dict.mem. apply bool_decide_eq_true. Qed.

Lemma mem_false k d : Dict.mem k d = false ↔ k ∉ Dict.keys d.
Proof. unfold Dict.mem. apply bool_decide_eq_false. Qed.

Lemma get_None k d : Dict.get k d = None ↔ k ∉ Dict.keys d.
Proof.
  induction d as [|[k' v'] d IH]; simpl.
  - split; [intros _; apply not_elem_of_nil | done].
  - case_decide as Hk.
    + subst. split; [done | intros H; exfalso; apply H; left].
    + rewrite IH. rewrite not_elem_of_cons. tauto.
Qed.

Lemma get_Some_elem k v d : Dict.get k d = Some v → (k, v) ∈ d.
Proof.
  induction d as [|[k' v'] d IH]; simpl; [done|].
  case_decide as Hk.
  - intros [= ->]. subst. left.
  - intros H. right. auto.
Qed.

Lemma elem_get k v d : Dict.wf d → (k, v) ∈ d → Dict.get k d = Some v.
Proof.
  unfold Dict.wf, Dict.keys.
  induction d as [|[k' v'] d IH]; simpl; intros Hnd Hin.
  - by apply elem_of_nil in Hin.
  - apply NoDup_cons in Hnd as [Hk' Hnd].
    apply elem_of_cons in Hin as [[= -> ->] | Hin].
    + by rewrite decide_True.
    + rewrite decide_False; [by apply IH|].
      intros ->. apply Hk'. apply list_elem_of_fmap. by exists (k', v).
Qed.

Lemma get_is_Some k d : is_Some (Dict.get k d) ↔ k ∈ Dict.keys d.
Proof.
  rewrite <- not_eq_None_Some, get_None.
  split; [|tauto]. intros H. by destruct (decide (k ∈ Dict.keys d)).
Qed.

Lemma keys_set k v d :
  Dict.keys (Dict.set k v d) =
    if Dict.mem k d then Dict.keys d else Dict.keys d ++ [k].
Proof.
  induction d as [|[k' v'] d IH]; simpl; [done|].
  case_decide as Hk.
  - subst. rewrite (proj2 (mem_true k' ((k', v') :: d))); [done | left].
  - simpl. rewrite IH. destruct (Dict.mem k d) eqn:Hm.
    + apply mem_true in Hm.
      rewrite (proj2 (mem_true k ((k', v') :: d))); [done | by right].
    + apply mem_false in Hm.
      rewrite (proj2 (mem_false k ((k', v') :: d))); [done|].
      simpl. rewrite not_elem_of_cons. done.
Qed.

Lemma elem_keys_set k k' v d :
  k' ∈ Dict.keys (Dict.set k v d) ↔ k' = k ∨ k' ∈ Dict.keys d.
Proof.
  rewrite keys_set. destruct (Dict.mem k d) eqn:Hm.
  - apply mem_true in Hm. split; [tauto | intros [-> | ?]; done].
  - rewrite elem_of_app, list_elem_of_singleton. tauto.
Qed.

Lemma get_set_eq k v d : Dict.get k (Dict.set k v d) = Some v.
Proof.
  induction d as [|[k' v'] d IH]; simpl.
  - by rewrite decide_True.
  - case_decide as Hk; simpl.
    + by rewrite decide_True.
    + by rewrite decide_False.
Qed.

Lemma get_set_ne k k' v d :
  k' ≠ k → Dict.get k' (Dict.set k v d) = Dict.get k' d.
Proof.
  intros Hne. induction d as [|[k0 v0] d IH]; simpl.
  - by rewrite decide_False.
  - case_decide as Hk; simpl.
    + subst. by rewrite !decide_False.
    + case_decide; [done | apply IH].
Qed.

Lemma wf_set k v d : Dict.wf d → Dict.wf (Dict.set k v d).
Proof.
  unfold Dict.wf. rewrite keys_set. destruct (Dict.mem k d) eqn:Hm; [done|].
  apply mem_false in Hm. intros Hnd.
  apply NoDup_app. split_and!; [done | | apply NoDup_singleton].
  intros x Hx ->%list_elem_of_singleton. done.
Qed.

Lemma keys_remove k d :
  Dict.keys (Dict.remove k d) = filter (λ k', k' ≠ k) (Dict.keys d).
Proof.
  unfold Dict.remove, Dict.keys.
  induction d as [|[k' v'] d IH]; [done|].
  rewrite fmap_cons. cbn [fst]. destruct (decide (k' = k)) as [->|Hne].
  - rewrite (filter_cons_False _ (k, v')) by (simpl; intros HH; by apply HH).
    rewrite (filter_cons_False _ k) by (intros HH; by apply HH). done.
  - rewrite (filter_cons_True _ (k', v')) by done.
    rewrite (filter_cons_True _ k') by done.
    rewrite fmap_cons. by f_equal.
Qed.

Lemma elem_keys_remove k k' d :
  k' ∈ Dict.keys (Dict.remove k d) ↔ k' ≠ k ∧ k' ∈ Dict.keys d.
Proof. rewrite keys_remove, list_elem_of_filter. done. Qed.

Lemma get_remove_ne k k' d :
  k' ≠ k → Dict.get k' (Dict.remove k d) = Dict.get k' d.
Proof.
  intros Hne. unfold Dict.remove.
  induction d as [|[k0 v0] d IH]; [done|].
  destruct (decide (k0 = k)) as [->|Hk].
  - rewrite (filter_cons_False _ (k, v0)) by (simpl; intros HH; by apply HH).
    simpl. by rewrite decide_False.
  - rewrite (filter_cons_True _ (k0, v0)) by done. simpl.
    case_decide; [done | apply IH].
Qed.

Lemma remove_absent k d : k ∉ Dict.keys d → Dict.remove k d = d.
Proof.
  unfold Dict.remove, Dict.keys.
  induction d as [|[k' v'] d IH]; [done|].
  rewrite fmap_cons, not_elem_of_cons. intros [Hne Hk].
  rewrite (filter_cons_True _ (k', v')) by (simpl; auto). f_equal. auto.
Qed.

Lemma wf_remove k d : Dict.wf d → Dict.wf (Dict.remove k d).
Proof. unfold Dict.wf. rewrite keys_remove. apply NoDup_filter. Qed.
End dict_facts.

(** * Properties of [AgentMessage] *)

Section agent_message_facts.
Context `{Models}.
Implicit Types (self msg : AgentMessage.t) (wallet : Wallet).

Lemma get_signature_stored self field_name :
  (AgentMessage.get_signature self field_name).1 =
    stored_signature (AgentMessage._decorators self) field_name.
Proof.
  unfold AgentMessage.get_signature, stored_signature, DecoratorSet.field.
  destruct (Dict.get field_name _); reflexivity.
Qed.

Lemma get_signature_id self field_name :
  AgentMessage._id (AgentMessage.get_signature self field_name).2 =
    AgentMessage._id self.
Proof.
  unfold AgentMessage.get_signature, DecoratorSet.field.
  destruct (Dict.get field_name _); reflexivity.
Qed.

Lemma verify_signed_field_unfold self field_name wallet signer_verkey :
  (AgentMessage.verify_signed_field self field_name wallet signer_verkey).1 =
    match stored_signature (AgentMessage._decorators self) field_name with
    | None =>
        Raise (BaseModelError ("Missing field signature: " +:+ field_name))
    | Some sig =>
        if negb (verify sig wallet) then
          Raise (BaseModelError
                   ("Field signature verification failed: " +:+ field_name))
        else
          match signer_verkey with
          | Some verkey =>
              if bool_decide (signer sig ≠ verkey) then
                Raise (BaseModelError
                         ("Signer verkey of signature does not match: "
                          +:+ field_name))
              else Ok (signer sig)
          | None => Ok (signer sig)
          end
    end.
Proof.
  rewrite <- get_signature_stored. unfold AgentMessage.verify_signed_field.
  destruct (AgentMessage.get_signature self field_name) as [sig self'].
  reflexivity.
Qed.

(** C3. [verify_signed_field] raises when no signature is stored for the
    field, raises when the stored signature does not verify, raises when
    a signer key is expected and differs from the stored one, and in
    every other case returns the signer key of the stored signature. *)
Theorem verify_signed_field_cases self field_name wallet signer_verkey :
  let stored := stored_signature (AgentMessage._decorators self) field_name in
  let outcome :=
    (AgentMessage.verify_signed_field self field_name wallet signer_verkey).1 in
  (stored = None →
     outcome =
       Raise (BaseModelError ("Missing field signature: " +:+ field_name)))
  ∧ (∀ sig, stored = Some sig → verify sig wallet = false →
       outcome =
         Raise (BaseModelError
                  ("Field signature verification failed: " +:+ field_name)))
  ∧ (∀ sig verkey, stored = Some sig → verify sig wallet = true →
       signer_verkey = Some verkey → signer sig ≠ verkey →
       outcome =
         Raise (BaseModelError
                  ("Signer verkey of signature does not match: "
                   +:+ field_name)))
  ∧ (∀ sig, stored = Some sig → verify sig wallet = true →
       (signer_verkey = None ∨ signer_verkey = Some (signer sig)) →
       outcome = Ok (signer sig)).
Proof.
  intros stored outcome. subst stored outcome.
  rewrite verify_signed_field_unfold.
  split_and!.
  - intros ->. reflexivity.
  - intros sig -> Hv. rewrite Hv. reflexivity.
  - intros sig verkey -> Hv -> Hne. rewrite Hv. simpl.
    rewrite bool_decide_eq_true_2 by done. reflexivity.
  - intros sig -> Hv [-> | ->]; rewrite Hv; simpl; [reflexivity|].
    rewrite bool_decide_eq_false_2; [reflexivity|]. intros Hne. by apply Hne.
Qed.

(** The loop returns [true] exactly when every signature it meets
    verifies. *)
Lemma verify_loop_true wallet values :
  (AgentMessage.verify_loop wallet values).1 = true ↔
    ∀ field sig, field ∈ values → Dict.get "sig" field = Some sig →
                 verify sig wallet = true.
Proof.
  induction values as [|field rest IH]; simpl.
  - split; [|done]. intros _ field sig Hin. by apply elem_of_nil in Hin.
  - destruct (Dict.get "sig" field) as [sig|] eqn:Hsig.
    + destruct (verify sig wallet) eqn:Hv; simpl.
      * destruct (AgentMessage.verify_loop wallet rest) as [b calls].
        simpl in *. rewrite IH. split.
        -- intros Hall f s [-> | Hin]%elem_of_cons Hs; [|eauto].
           rewrite Hsig in Hs. by injection Hs as <-.
        -- intros Hall f s Hin. apply Hall. by right.
      * split; [done|]. intros Hall.
        rewrite (Hall field sig) in Hv; [done | left | done].
    + rewrite IH. split.
      * intros Hall f s [-> | Hin]%elem_of_cons Hs; [congruence | eauto].
      * intros Hall f s Hin. apply Hall. by right.
Qed.

(** Signatures that verify are handed to the wallet one after the other;
    the first one that fails ends the loop. *)
Lemma verify_loop_first_failure wallet pre field post sig :
  (∀ f s, f ∈ pre → Dict.get "sig" f = Some s → verify s wallet = true) →
  Dict.get "sig" field = Some sig →
  verify sig wallet = false →
  AgentMessage.verify_loop wallet (pre ++ field :: post) =
    (false, signatures_of pre ++ [sig]).
Proof.
  intros Hpre Hsig Hv. induction pre as [|f pre IH]; simpl.
  - rewrite Hsig, Hv. reflexivity.
  - unfold signatures_of. simpl.
    destruct (Dict.get "sig" f) as [s|] eqn:Hs.
    + rewrite (Hpre f s); [|left|done]. simpl.
      rewrite IH; [reflexivity|]. intros f' s' Hin. apply Hpre. by right.
    + apply IH. intros f' s' Hin. apply Hpre. by right.
Qed.

Lemma verify_loop_no_signature wallet values :
  (∀ field, field ∈ values → Dict.get "sig" field = None) →
  AgentMessage.verify_loop wallet values = (true, []).
Proof.
  induction values as [|field rest IH]; simpl; [done|]. intros Hnone.
  rewrite (Hnone field) by left. apply IH. intros f Hin. apply Hnone.
  by right.
Qed.

(** C4. [verify_signatures] returns [True] when no per-field entry
    holds a ["sig"]; it returns [False] at the first stored signature
    that fails, having verified the signatures before it and none after
    it; and it returns [True] exactly when every stored signature
    verifies. *)
Theorem verify_signatures_cases self wallet :
  let values := (DecoratorSet.fields (AgentMessage._decorators self)).*2 in
  ((∀ field, field ∈ values → Dict.get "sig" field = None) →
     AgentMessage.verify_signatures_calls self wallet = (true, []))
  ∧ (∀ pre field post sig,
       values = pre ++ field :: post →
       (∀ f s, f ∈ pre → Dict.get "sig" f = Some s →
               verify s wallet = true) →
       Dict.get "sig" field = Some sig →
       verify sig wallet = false →
       AgentMessage.verify_signatures_calls self wallet =
         (false, signatures_of pre ++ [sig]))
  ∧ (AgentMessage.verify_signatures self wallet = true ↔
       ∀ field sig, field ∈ values → Dict.get "sig" field = Some sig →
                    verify sig wallet = true).
Proof.
  intros values. subst values.
  unfold AgentMessage.verify_signatures, AgentMessage.verify_signatures_calls.
  split_and!.
  - apply verify_loop_no_signature.
  - intros pre field post sig -> Hpre Hsig Hv.
    by apply verify_loop_first_failure.
  - apply verify_loop_true.
Qed.

(** C5. [assign_thread_from] does nothing for an absent message.  For a
    message [msg] it sets the thread decorator: [thid] is the [thid] of
    the thread decorator of [msg] when there is one and it carries a
    (non-empty) [thid], and the message id of [msg] otherwise; [pthid] is
    the [pthid] of that thread decorator, and absent when [msg] has no
    thread decorator. *)
Theorem assign_thread_from_cases self :
  AgentMessage.assign_thread_from self None = self
  ∧ (∀ msg,
       AgentMessage._thread msg = None →
       AgentMessage._thread (AgentMessage.assign_thread_from self (Some msg)) =
         Some (ThreadDecorator (Some (AgentMessage._id msg)) None))
  ∧ (∀ msg thread T,
       AgentMessage._thread msg = Some thread →
       thid thread = Some T → T ≠ "" →
       AgentMessage._thread (AgentMessage.assign_thread_from self (Some msg)) =
         Some (ThreadDecorator (Some T) (pthid thread)))
  ∧ (∀ msg thread,
       AgentMessage._thread msg = Some thread →
       truthy (thid thread) = false →
       AgentMessage._thread (AgentMessage.assign_thread_from self (Some msg)) =
         Some (ThreadDecorator (Some (AgentMessage._id msg)) (pthid thread))).
Proof.
  split_and!.
  - reflexivity.
  - intros msg Hth. unfold AgentMessage.assign_thread_from. rewrite Hth.
    unfold AgentMessage.assign_thread_id, AgentMessage._thread_setter,
      AgentMessage._thread, DecoratorSet.get. simpl. apply get_set_eq.
  - intros msg thread T Hth HT Hne.
    unfold AgentMessage.assign_thread_from. rewrite Hth, HT. simpl.
    rewrite bool_decide_eq_true_2 by done.
    unfold AgentMessage.assign_thread_id, AgentMessage._thread_setter,
      AgentMessage._thread, DecoratorSet.get. simpl. apply get_set_eq.
  - intros msg thread Hth Hfalsy.
    unfold AgentMessage.assign_thread_from. rewrite Hth, Hfalsy.
    unfold AgentMessage.assign_thread_id, AgentMessage._thread_setter,
      AgentMessage._thread, DecoratorSet.get. simpl. apply get_set_eq.
Qed.
End agent_message_facts.

(** * Construction and the message id *)

Section construction_facts.
Context `{Models}.
Implicit Types (self : AgentMessage.t) (cls : AgentMessage.kind).

Lemma set_signature_id self field_name signature :
  AgentMessage._id (AgentMessage.set_signature self field_name signature) =
    AgentMessage._id self.
Proof.
  unfold AgentMessage.set_signature.
  destruct (DecoratorSet.field _ _). reflexivity.
Qed.

Lemma apply_keeps_id getattr (o : AgentMessage.operation) self :
  (∀ val, o ≠ AgentMessage.Set_id val) →
  AgentMessage._id (AgentMessage.apply getattr o self) = AgentMessage._id self.
Proof.
  intros Hnot. destruct o as [val| | | | f k w ts | f w k | | | msg |]; simpl.
  - by destruct (Hnot val).
  - reflexivity.
  - apply get_signature_id.
  - apply set_signature_id.
  - unfold AgentMessage.sign_field.
    destruct (getattr self f); simpl;
      [apply set_signature_id | reflexivity].
  - unfold AgentMessage.verify_signed_field.
    pose proof (get_signature_id self f) as Hid.
    destruct (AgentMessage.get_signature self f). exact Hid.
  - reflexivity.
  - reflexivity.
  - destruct msg; reflexivity.
  - reflexivity.
Qed.

(** The constructor by cases on what the [Meta] of the class declares. *)
Lemma init_cases cls attributes uuid4 _id decorators :
  AgentMessage.__init__ cls attributes uuid4 _id decorators =
    match AgentMessage.schema_class (AgentMessage.meta cls) with
    | AgentMessage.Undeclared => Raise (AttributeError "schema_class")
    | AgentMessage.Declared schema =>
        if truthy schema then
          match AgentMessage.message_type (AgentMessage.meta cls) with
          | AgentMessage.Undeclared => Raise (AttributeError "message_type")
          | AgentMessage.Declared type =>
              if truthy type then
                Ok (constructed cls attributes uuid4 _id decorators)
              else Raise (no_message_type cls)
          end
        else Raise (no_schema_class cls)
    end.
Proof.
  unfold AgentMessage.__init__, AgentMessage.BaseModel__init__.
  destruct (AgentMessage.schema_class _) as [|schema]; simpl; [done|].
  destruct (truthy schema); simpl; [|done].
  destruct (AgentMessage.message_type _) as [|type]; simpl.
  - by destruct (truthy _id).
  - unfold constructed.
    destruct _id as [supplied|]; simpl;
      [destruct (bool_decide (supplied ≠ "")); simpl|];
      by destruct (truthy type).
Qed.


Lemma init_returned cls attributes uuid4 _id decorators self :
  AgentMessage.__init__ cls attributes uuid4 _id decorators = Ok self →
  declared_truthy (AgentMessage.schema_class (AgentMessage.meta cls)) = true
  ∧ declared_truthy (AgentMessage.message_type (AgentMessage.meta cls)) = true
  ∧ self = constructed cls attributes uuid4 _id decorators.
Proof.
  rewrite init_cases.
  destruct (AgentMessage.schema_class _) as [|schema]; [done|]. simpl.
  destruct (truthy schema); [|done].
  destruct (AgentMessage.message_type _) as [|type]; [done|]. simpl.
  destruct (truthy type); [|done].
  by intros [= <-].
Qed.

Lemma no_message_type_ne_no_schema_class cls :
  no_message_type cls ≠ no_schema_class cls.
Proof.
  unfold no_message_type, no_schema_class. intros Heq.
  assert (∀ a b, TypeError a = TypeError b → a = b) as Hmsg
    by (by intros a b [= ->]).
  apply Hmsg in Heq.
  apply (inj (String.app _)) in Heq.
  apply (inj (String.app _)) in Heq.
  discriminate.
Qed.

(** C7, as the code has it.  Construction takes the supplied id when it
    is non-empty and the generated one otherwise, and keeps track of
    which; after construction every operation other than the [_id]
    setter leaves the id as it is, over any sequence of operations and
    whatever [getattr] finds for [sign_field]. *)
Theorem message_id_generated_and_kept cls attributes uuid4 _id decorators self :
  AgentMessage.__init__ cls attributes uuid4 _id decorators = Ok self →
  (AgentMessage._id self =
     match _id with
     | Some supplied => if bool_decide (supplied ≠ "") then supplied else uuid4
     | None => uuid4
     end)
  ∧ (AgentMessage._message_new_id self = negb (truthy _id))
  ∧ (∀ getattr (ops : list AgentMessage.operation),
       (∀ o val, o ∈ ops → o ≠ AgentMessage.Set_id val) →
       AgentMessage._id
         (foldl (λ m o, AgentMessage.apply getattr o m) self ops) =
         AgentMessage._id self).
Proof.
  intros (_ & _ & ->)%init_returned. split_and!; [done | done |].
  intros getattr ops.
  generalize (constructed cls attributes uuid4 _id decorators).
  induction ops as [|o ops IH]; intros self Hops; simpl; [done|].
  rewrite IH.
  - apply apply_keeps_id. intros val. apply Hops. left.
  - intros o' val Hin. apply Hops. by right.
Qed.

(** C8, as the code has it.  The check of the type runs in [__init__],
    after the initializer of the base class has checked the schema
    class.  For a class with a schema class and an empty type, every
    construction of an instance raises the [TypeError] about the type.
    For a class with a non-empty type no construction raises that error,
    and every construction returns when the class has a schema class
    too.  For a class with an empty schema class every construction
    raises the [TypeError] of the base class, whatever the type.  An
    attribute that a nested [Meta] does not declare gives an
    [AttributeError] instead.  So a construction returns exactly for the
    classes with a schema class and a non-empty type. *)
Theorem message_type_checked_at_construction cls attributes uuid4 _id
    decorators :
  let schema := AgentMessage.schema_class (AgentMessage.meta cls) in
  let type := AgentMessage.message_type (AgentMessage.meta cls) in
  let construct := AgentMessage.__init__ cls attributes uuid4 _id decorators in
  (declared_truthy schema = true → declared_falsy type = true →
   construct = Raise (no_message_type cls))
  ∧ (declared_truthy type = true →
     construct ≠ Raise (no_message_type cls)
     ∧ (declared_truthy schema = true → ∃ self, construct = Ok self))
  ∧ (declared_falsy schema = true → construct = Raise (no_schema_class cls))
  ∧ (schema = AgentMessage.Undeclared →
     construct = Raise (AttributeError "schema_class"))
  ∧ (declared_truthy schema = true → type = AgentMessage.Undeclared →
     construct = Raise (AttributeError "message_type"))
  ∧ ((∃ self, construct = Ok self) ↔
     declared_truthy schema = true ∧ declared_truthy type = true).
Proof.
  intros schema type construct.
  unfold construct. rewrite init_cases. fold schema type.
  pose proof (no_message_type_ne_no_schema_class cls) as Hne.
  clearbody schema type. clear construct. split_and!.
  - intros Hs Ht. destruct schema as [|s]; [done|]. simpl in Hs. rewrite Hs.
    destruct type as [|t]; [done|]. simpl in Ht.
    by apply negb_true_iff in Ht as ->.
  - intros Ht. destruct type as [|t]; [done|]. simpl in Ht. split.
    + destruct schema as [|s]; [done|].
      destruct (truthy s); [by rewrite Ht|].
      intros Heq. apply Hne. congruence.
    + intros Hs. destruct schema as [|s]; [done|]. simpl in Hs.
      rewrite Hs, Ht. eauto.
  - intros Hs. destruct schema as [|s]; [done|]. simpl in Hs.
    by apply negb_true_iff in Hs as ->.
  - by intros ->.
  - intros Hs ->. destruct schema as [|s]; [done|]. simpl in Hs.
    by rewrite Hs.
  - split.
    + intros [self Hself]. destruct schema as [|s]; [done|]. simpl.
      destruct (truthy s); [|done].
      destruct type as [|t]; [done|]. simpl. by destruct (truthy t).
    + intros [Hs Ht]. destruct schema as [|s]; [done|].
      destruct type as [|t]; [done|]. simpl in Hs, Ht. rewrite Hs, Ht. eauto.
Qed.
End construction_facts.

(** * The signed-fields check on load *)

Section load_facts.
Context `{Models}.
Implicit Types (expect : list string) (fields : Dict.t (Dict.t Decorator))
  (found : Dict.t Decorator) (processed : Dict.t Value)
  (decorators : DecoratorSet.t).

Lemma stored_signature_elem decorators f sig :
  stored_signature decorators f = Some sig →
  ∃ fd, (f, fd) ∈ DecoratorSet.fields decorators ∧ Dict.get "sig" fd = Some sig.
Proof.
  unfold stored_signature.
  destruct (Dict.get f _) as [fd|] eqn:Hfd; [|done].
  intros Hsig. exists fd. split; [by apply get_Some_elem | done].
Qed.

Lemma elem_stored_signature decorators f fd :
  Dict.wf (DecoratorSet.fields decorators) →
  (f, fd) ∈ DecoratorSet.fields decorators →
  stored_signature decorators f = Dict.get "sig" fd.
Proof.
  intros Hwf Hin. unfold stored_signature. by rewrite (elem_get f fd).
Qed.

Lemma stored_signature_None decorators f :
  Dict.wf (DecoratorSet.fields decorators) →
  stored_signature decorators f = None ↔
    ∀ fd sig, (f, fd) ∈ DecoratorSet.fields decorators →
              Dict.get "sig" fd ≠ Some sig.
Proof.
  intros Hwf. split.
  - intros Hnone fd sig Hin. rewrite <- (elem_stored_signature _ f fd) by done.
    by rewrite Hnone.
  - intros Hall. destruct (stored_signature decorators f) as [sig|] eqn:Hs;
      [|done].
    apply stored_signature_elem in Hs as (fd & Hin & Hsig).
    by destruct (Hall fd sig Hin).
Qed.

(** The first loop: what it checked and what it stored when it gets
    through, and which field stopped it otherwise. *)
Lemma found_loop_spec expect fields found processed :
  Dict.wf fields →
  match AgentMessageSchema.found_loop expect fields found processed with
  | Ok (found', processed') =>
      (∀ f fd sig, (f, fd) ∈ fields → Dict.get "sig" fd = Some sig →
         f ∈ expect ∧ (f ∉ Dict.keys processed)
         ∧ Dict.get f found' = Some sig
         ∧ Dict.get f processed' = Some (decode sig).1)
      ∧ (∀ f, f ∈ Dict.keys found' →
           f ∈ Dict.keys found
           ∨ (∃ fd sig, (f, fd) ∈ fields ∧ Dict.get "sig" fd = Some sig))
      ∧ (∀ k, k ∉ Dict.keys fields →
           Dict.get k found' = Dict.get k found
           ∧ Dict.get k processed' = Dict.get k processed)
  | Raise e =>
      ∃ f fd sig, (f, fd) ∈ fields ∧ Dict.get "sig" fd = Some sig
        ∧ (((f ∉ expect) ∧ e = unexpected_signature f)
           ∨ (f ∈ expect ∧ f ∈ Dict.keys processed
              ∧ e = conflicting_value f))
  end%type.
Proof.
  revert found processed.
  induction fields as [|[name field] rest IH]; intros found processed Hwf;
    simpl.
  - split_and!.
    + intros f fd sig Hin. by apply elem_of_nil in Hin.
    + intros f Hf. by left.
    + done.
  - unfold Dict.wf in Hwf. simpl in Hwf.
    apply NoDup_cons in Hwf as [Hname Hwf].
    destruct (Dict.get "sig" field) as [sig|] eqn:Hsig.
    + case_bool_decide as Hexp.
      { exists name, field, sig. split_and!; [left | done | by left]. }
      destruct (Dict.mem name processed) eqn:Hmem.
      { apply mem_true in Hmem.
        exists name, field, sig. split_and!; [left | done | by right]. }
      apply mem_false in Hmem.
      specialize (IH (Dict.set name sig found)
                     (Dict.set name (decode sig).1 processed) Hwf).
      destruct (AgentMessageSchema.found_loop _ _ _ _) as [[found' processed']|e].
      * destruct IH as (IH1 & IH2 & IH3). split_and!.
        -- intros f fd s [[= -> ->] | Hin]%elem_of_cons Hs.
           ++ rewrite Hsig in Hs. injection Hs as <-.
              destruct (IH3 name Hname) as [-> ->].
              by rewrite !get_set_eq.
           ++ destruct (IH1 f fd s Hin Hs) as (? & Hnp & ? & ?).
              split_and!; try done.
              intros Hf. apply Hnp. apply elem_keys_set. by right.
        -- intros f Hf. destruct (IH2 f Hf) as [Hf'|(fd & s & Hin & Hs)].
           ++ apply elem_keys_set in Hf' as [-> | Hf'']; [|by left].
              right. exists field, sig. split; [left | done].
           ++ right. exists fd, s. split; [by right | done].
        -- intros k [Hk1 Hk2]%not_elem_of_cons.
           destruct (IH3 k Hk2) as [-> ->].
           by rewrite !get_set_ne.
      * destruct IH as (f & fd & s & Hin & Hs & Hcase).
        exists f, fd, s. split_and!; [by right | done |].
        destruct Hcase as [?|(? & Hf & ?)]; [by left | right].
        split_and!; try done.
        apply elem_keys_set in Hf as [-> | Hf]; [|done].
        destruct Hname. apply list_elem_of_fmap. by exists (name, fd).
    + specialize (IH found processed Hwf).
      destruct (AgentMessageSchema.found_loop _ _ _ _) as [[found' processed']|e].
      * destruct IH as (IH1 & IH2 & IH3). split_and!.
        -- intros f fd s [[= -> ->] | Hin]%elem_of_cons Hs; [congruence|].
           by apply (IH1 f fd s).
        -- intros f Hf. destruct (IH2 f Hf) as [Hf'|(fd & s & Hin & Hs)];
             [by left|].
           right. exists fd, s. split; [by right | done].
        -- intros k [Hk1 Hk2]%not_elem_of_cons. by apply IH3.
      * destruct IH as (f & fd & s & Hin & Hs & Hcase).
        exists f, fd, s. split_and!; [by right | done | done].
Qed.

Lemma expect_loop_spec expect found :
  match AgentMessageSchema.expect_loop expect found with
  | Ok _ => ∀ f, f ∈ expect → f ∈ Dict.keys found
  | Raise e =>
      ∃ f, f ∈ expect ∧ (f ∉ Dict.keys found) ∧ e = expected_signature f
  end.
Proof.
  induction expect as [|name rest IH]; simpl.
  - intros f Hf. by apply elem_of_nil in Hf.
  - destruct (Dict.mem name found) eqn:Hmem; simpl.
    + apply mem_true in Hmem.
      destruct (AgentMessageSchema.expect_loop rest found) as [[]|e].
      * intros f [-> | Hf]%elem_of_cons; [done | by apply IH].
      * destruct IH as (f & Hf & ?). exists f. split; [by right | done].
    + apply mem_false in Hmem. exists name. split_and!; [left | done | done].
Qed.

(** The check as a whole, in terms of the signatures stored after the
    extraction. *)
Lemma check_signed_fields_spec expect decorators processed :
  Dict.wf (DecoratorSet.fields decorators) →
  match AgentMessageSchema.check_signed_fields expect decorators processed with
  | Ok processed' =>
      (∀ f sig, stored_signature decorators f = Some sig →
         f ∈ expect ∧ f ∉ Dict.keys processed)
      ∧ (∀ f, f ∈ expect →
           ∃ sig, stored_signature decorators f = Some sig
                  ∧ Dict.get f processed' = Some (decode sig).1)
  | Raise e =>
      (∃ f, e = expected_signature f ∧ f ∈ expect
            ∧ stored_signature decorators f = None)
      ∨ (∃ f, e = conflicting_value f ∧ f ∈ expect
              ∧ f ∈ Dict.keys processed
              ∧ is_Some (stored_signature decorators f))
      ∨ (∃ f, e = unexpected_signature f
              ∧ is_Some (stored_signature decorators f) ∧ f ∉ expect)
  end.
Proof.
  intros Hwf. unfold AgentMessageSchema.check_signed_fields.
  pose proof (found_loop_spec expect (DecoratorSet.fields decorators) []
                processed Hwf) as Hloop.
  destruct (AgentMessageSchema.found_loop _ _ _ _)
    as [[found' processed']|e]; simpl.
  - destruct Hloop as (H1 & H2 & H3).
    pose proof (expect_loop_spec expect found') as Hexp.
    destruct (AgentMessageSchema.expect_loop expect found') as [[]|e]; simpl.
    + split.
      * intros f sig (fd & Hin & Hsig)%stored_signature_elem.
        destruct (H1 f fd sig Hin Hsig) as (? & ? & _). done.
      * intros f Hf. destruct (H2 f (Hexp f Hf)) as [Hnil|(fd & sig & Hin & Hsig)].
        { by apply elem_of_nil in Hnil. }
        exists sig. rewrite (elem_stored_signature _ f fd) by done.
        split; [done|]. by destruct (H1 f fd sig Hin Hsig) as (_ & _ & _ & ?).
    + destruct Hexp as (f & Hf & Hnot & ->). left. exists f.
      split_and!; try done.
      destruct (stored_signature decorators f) as [sig|] eqn:Hs; [|done].
      apply stored_signature_elem in Hs as (fd & Hin & Hsig).
      destruct (H1 f fd sig Hin Hsig) as (_ & _ & Hfound & _).
      destruct Hnot. apply get_is_Some. by rewrite Hfound.
  - destruct Hloop as (f & fd & sig & Hin & Hsig & Hcase).
    assert (stored_signature decorators f = Some sig) as Hs.
    { by rewrite (elem_stored_signature _ f fd). }
    destruct Hcase as [[Hexp ->] | (Hexp & Hproc & ->)].
    + right. right. exists f. by rewrite Hs.
    + right. left. exists f. by rewrite Hs.
Qed.
End load_facts.

Section load_theorem.
Context `{Models}.

Lemma field_wf name (decorators : DecoratorSet.t) :
  Dict.wf (DecoratorSet.fields decorators) →
  Dict.wf (DecoratorSet.fields (DecoratorSet.field name decorators).2).
Proof.
  intros Hwf. unfold DecoratorSet.field.
  destruct (Dict.get name _); simpl; [done | by apply wf_set].
Qed.

(** The extraction keeps the field names of a decorator set distinct. *)
Lemma extract_loop_wf message remain (decorators : DecoratorSet.t) remain'
    decorators' :
  Dict.wf (DecoratorSet.fields decorators) →
  DecoratorSet.extract_loop message remain decorators
    = Ok (remain', decorators') →
  Dict.wf (DecoratorSet.fields decorators').
Proof.
  revert remain decorators.
  induction message as [|[key value] rest IH]; intros remain decorators Hwf;
    simpl.
  - by intros [= _ <-].
  - destruct (DecoratorSet.split_key key) as [[field_name kind]|];
      [|by apply IH].
    case_decide; [done|]. case_decide.
    + by apply IH.
    + pose proof (field_wf field_name decorators Hwf) as Hwf'.
      destruct (DecoratorSet.field field_name decorators) as [f self'].
      apply IH. simpl. by apply wf_set.
Qed.

(** C1. After the extraction, the pre-load hook raises a validation
    error exactly when a field of the policy has no stored signature, or
    a field of the policy has both a plain value and a stored signature,
    or a signature is stored for a field outside the policy; the error
    raised names one such field under the matching message.  When the
    hook returns, the plain map gives every field of the policy the
    value decoded from its stored signature. *)
Theorem load_signed_fields_check (self : AgentMessageSchema.t)
    (data processed : Dict.t Value) (decorators : DecoratorSet.t) :
  Dict.wf (DecoratorSet.fields (AgentMessageSchema._decorators self)) →
  DecoratorSet.extract_decorators (AgentMessageSchema._decorators self) data
    = Ok (processed, decorators) →
  let expect := AgentMessageSchema.expect_fields self in
  let outcome := AgentMessageSchema.extract_decorators self data in
  let missing f := f ∈ expect ∧ stored_signature decorators f = None in
  let conflicting f :=
    f ∈ expect ∧ f ∈ Dict.keys processed
    ∧ is_Some (stored_signature decorators f) in
  let unexpected f :=
    is_Some (stored_signature decorators f) ∧ f ∉ expect in
  (raises outcome ↔ ∃ f, missing f ∨ conflicting f ∨ unexpected f)
  ∧ (∀ e, outcome = Raise e →
       (∃ f, e = expected_signature f ∧ missing f)
       ∨ (∃ f, e = conflicting_value f ∧ conflicting f)
       ∨ (∃ f, e = unexpected_signature f ∧ unexpected f))
  ∧ (∀ processed' self', outcome = Ok (processed', self') →
       ∀ f, f ∈ expect →
         ∃ sig, stored_signature decorators f = Some sig
                ∧ Dict.get f processed' = Some (decode sig).1).
Proof.
  intros Hwf0 Hext expect outcome missing conflicting unexpected.
  assert (Dict.wf (DecoratorSet.fields decorators)) as Hwf.
  { by eapply extract_loop_wf. }
  pose proof (check_signed_fields_spec expect decorators processed Hwf)
    as Hcheck.
  assert (outcome =
            match AgentMessageSchema.check_signed_fields expect decorators
                    processed with
            | Ok processed' =>
                Ok (processed',
                    AgentMessageSchema.mk (AgentMessageSchema.class_of self)
                      decorators (AgentMessageSchema._decorators_dict self)
                      (AgentMessageSchema._signatures self))
            | Raise e => Raise e
            end) as Hout.
  { subst outcome. unfold AgentMessageSchema.extract_decorators.
    rewrite Hext. simpl. fold expect.
    by destruct (AgentMessageSchema.check_signed_fields _ _ _). }
  destruct (AgentMessageSchema.check_signed_fields expect decorators processed)
    as [processed'|e]; rewrite Hout; clear Hout.
  - destruct Hcheck as [Hsigs Hexp]. split_and!.
    + split; [by intros [e ?]|].
      intros (f & [[Hf Hnone] | [(Hf & Hp & [sig Hs]) | [[sig Hs] Hf]]]).
      * destruct (Hexp f Hf) as (sig & Hs & _). congruence.
      * by destruct (Hsigs f sig Hs) as [_ ?].
      * by destruct (Hsigs f sig Hs) as [? _].
    + done.
    + intros p s [= <- <-]. exact Hexp.
  - split_and!.
    + split; [|by exists e]. intros _.
      destruct Hcheck as [(f & _ & ?) | [(f & _ & ?) | (f & _ & ?)]];
        exists f; [by left | by right; left | by right; right].
    + intros e' [= <-].
      destruct Hcheck as [(f & ? & ?) | [(f & ? & ?) | (f & ? & ?)]];
        [left | right; left | right; right]; by exists f.
    + done.
Qed.
End load_theorem.

(** * Wire keys *)

Section wire_keys.
Context `{Models}.

Lemma split_key_marked (a b : string) :
  is_Some (DecoratorSet.split_key (a +:+ String "~" b)).
Proof.
  induction a as [|c a IH]; simpl.
  - eauto.
  - case_decide; [eauto|]. destruct IH as [[x y] ->]. eauto.
Qed.

Lemma has_marker_app (a b : string) :
  DecoratorSet.has_marker (a +:+ String "~" b) = true.
Proof.
  unfold DecoratorSet.has_marker.
  by destruct (split_key_marked a b) as [x ->].
Qed.

Lemma has_marker_sig_key (f : string) :
  DecoratorSet.has_marker (sig_key f) = true.
Proof. apply has_marker_app. Qed.

Lemma split_key_unmarked (a b : string) :
  DecoratorSet.has_marker a = false →
  DecoratorSet.split_key (a +:+ String "~" b) = Some (a, b).
Proof.
  unfold DecoratorSet.has_marker. induction a as [|c a IH]; simpl.
  - done.
  - case_decide; [done|].
    destruct (DecoratorSet.split_key a) as [[x y]|] eqn:Ha; [done|].
    intros _. by rewrite IH.
Qed.

Lemma sig_key_inj (f g : string) :
  DecoratorSet.has_marker f = false →
  DecoratorSet.has_marker g = false →
  sig_key f = sig_key g → f = g.
Proof.
  intros Hf Hg Heq.
  pose proof (split_key_unmarked f "sig" Hf) as Hsf.
  pose proof (split_key_unmarked g "sig" Hg) as Hsg.
  unfold sig_key in Heq. simpl in *. rewrite Heq in Hsf. congruence.
Qed.

Lemma unmarked_ne_sig_key (f g : string) :
  DecoratorSet.has_marker f = false → f ≠ sig_key g.
Proof. intros Hf ->. by rewrite has_marker_sig_key in Hf. Qed.

(** Every key of [to_dict] carries the marker. *)
Lemma keys_update_subset {V} (d d' : Dict.t V) k :
  k ∈ Dict.keys (Dict.update d d') → k ∈ Dict.keys d ∨ k ∈ Dict.keys d'.
Proof.
  unfold Dict.update. revert d.
  induction d' as [|[k' v'] d' IH]; intros d; simpl; [by left|].
  intros [Hk | Hk]%IH.
  - apply elem_keys_set in Hk as [-> | Hk]; [right; left | by left].
  - right. by right.
Qed.

Lemma to_dict_marked (decorators : DecoratorSet.t) k :
  k ∈ Dict.keys (DecoratorSet.to_dict decorators) →
  DecoratorSet.has_marker k = true.
Proof.
  unfold DecoratorSet.to_dict.
  intros [Hk | Hk]%keys_update_subset; [by apply elem_of_nil in Hk|].
  unfold Dict.keys in Hk. rewrite fmap_app, elem_of_app in Hk.
  destruct Hk as [Hk | Hk].
  - apply list_elem_of_fmap in Hk as ([k1 v1] & -> & Hin).
    apply list_elem_of_fmap in Hin as ([name d] & [= -> ->] & _).
    apply (has_marker_app "" name).
  - apply list_elem_of_fmap in Hk as ([k1 v1] & -> & Hin).
    apply list_elem_of_In, in_flat_map in Hin as ([field fd] & _ & Hin).
    apply list_elem_of_In, list_elem_of_fmap in Hin
      as ([kind d] & [= -> ->] & _).
    simpl. apply has_marker_app.
Qed.
End wire_keys.

(** * The pre-dump hook *)

Section pre_dump_facts.
Context `{Models}.
Implicit Types (fields : Dict.t (Dict.t Decorator)) (acc : Dict.t Value)
  (decorators : DecoratorSet.t).

Lemma elem_signed_names fields f :
  f ∈ signed_names fields ↔
    ∃ fd sig, (f, fd) ∈ fields ∧ Dict.get "sig" fd = Some sig.
Proof.
  unfold signed_names. rewrite list_elem_of_omap. split.
  - intros ([n fd] & Hin & Hsome). simpl in Hsome.
    destruct (Dict.get "sig" fd) as [sig|] eqn:Hsig; [|done].
    injection Hsome as ->. by exists fd, sig.
  - intros (fd & sig & Hin & Hsig). exists (f, fd). simpl.
    by rewrite Hsig.
Qed.

Lemma signed_names_stored decorators f :
  Dict.wf (DecoratorSet.fields decorators) →
  f ∈ signed_names (DecoratorSet.fields decorators) ↔
    is_Some (stored_signature decorators f).
Proof.
  intros Hwf. rewrite elem_signed_names. split.
  - intros (fd & sig & Hin & Hsig).
    rewrite (elem_stored_signature decorators f fd) by done. eauto.
  - intros [sig (fd & Hin & Hsig)%stored_signature_elem]. eauto.
Qed.

Lemma signed_names_keys fields f :
  f ∈ signed_names fields → f ∈ Dict.keys fields.
Proof.
  intros (fd & sig & Hin & _)%elem_signed_names.
  apply list_elem_of_fmap. by exists (f, fd).
Qed.

Lemma signed_names_NoDup fields :
  Dict.wf fields → NoDup (signed_names fields).
Proof.
  unfold Dict.wf. induction fields as [|[n fd] rest IH]; simpl.
  - intros _. constructor.
  - intros [Hn Hrest]%NoDup_cons. unfold signed_names. simpl.
    destruct (Dict.get "sig" fd); [|by apply IH].
    apply NoDup_cons. split; [|by apply IH].
    intros Hin. apply Hn. by apply signed_names_keys.
Qed.

(** The side table gets one entry per field that holds a signature, in
    the order of the fields. *)
Lemma signatures_loop_keys fields acc :
  Dict.wf fields →
  (∀ n, n ∈ Dict.keys fields → n ∉ Dict.keys acc) →
  Dict.keys (AgentMessageSchema.signatures_loop fields acc).1 =
    Dict.keys acc ++ signed_names fields.
Proof.
  unfold Dict.wf. revert acc.
  induction fields as [|[n fd] rest IH]; intros acc Hwf Hfresh; simpl.
  - by rewrite app_nil_r.
  - apply NoDup_cons in Hwf as [Hn Hwf]. unfold signed_names. simpl.
    destruct (Dict.get "sig" fd) as [sig|] eqn:Hsig.
    + specialize (IH (Dict.set n (serialize sig) acc) Hwf).
      destruct (AgentMessageSchema.signatures_loop rest _) as [s r].
      simpl in *. rewrite IH.
      * rewrite keys_set.
        rewrite (proj2 (mem_false n acc)) by (apply Hfresh; left).
        by rewrite <- app_assoc.
      * intros m Hm [-> | Hacc]%elem_keys_set; [done|].
        by apply (Hfresh m); [right|].
    + specialize (IH acc Hwf).
      destruct (AgentMessageSchema.signatures_loop rest _) as [s r].
      simpl in *. apply IH. intros m Hm. apply Hfresh. by right.
Qed.

Lemma missing_loop_spec expect (signatures : Dict.t Value) :
  match AgentMessageSchema.missing_loop expect signatures with
  | Ok _ => ∀ f, f ∈ expect → f ∈ Dict.keys signatures
  | Raise e =>
      ∃ f, f ∈ expect ∧ (f ∉ Dict.keys signatures)
           ∧ e = BaseModelError ("Missing signature for field: " +:+ f)
  end.
Proof.
  induction expect as [|name rest IH]; simpl.
  - intros f Hf. by apply elem_of_nil in Hf.
  - destruct (Dict.mem name signatures) eqn:Hmem; simpl.
    + apply mem_true in Hmem.
      destruct (AgentMessageSchema.missing_loop rest signatures) as [[]|e].
      * intros f [-> | Hf]%elem_of_cons; [done | by apply IH].
      * destruct IH as (f & Hf & ?). exists f. split; [by right | done].
    + apply mem_false in Hmem. exists name. split_and!; [left | done | done].
Qed.

(** The state that the pre-dump hook leaves in the schema, and its
    outcome, in terms of the stored signatures of the message. *)
Lemma check_dump_decorators_spec (self : AgentMessageSchema.t)
    (obj : AgentMessage.t) :
  Dict.wf (DecoratorSet.fields (AgentMessage._decorators obj)) →
  match AgentMessageSchema.check_dump_decorators self obj with
  | Ok (obj', self') =>
      obj' = obj
      ∧ Dict.keys (AgentMessageSchema._signatures self') =
          signed_names (DecoratorSet.fields (AgentMessage._decorators obj))
      ∧ is_Some (AgentMessageSchema._decorators_dict self')
      ∧ (∀ f, f ∈ AgentMessageSchema.expect_fields self →
           is_Some (stored_signature (AgentMessage._decorators obj) f))
  | Raise e =>
      ∃ f, f ∈ AgentMessageSchema.expect_fields self
           ∧ stored_signature (AgentMessage._decorators obj) f = None
           ∧ e = BaseModelError ("Missing signature for field: " +:+ f)
  end.
Proof.
  intros Hwf.
  unfold AgentMessageSchema.check_dump_decorators, DecoratorSet.copy.
  pose proof (signatures_loop_keys
                (DecoratorSet.fields (AgentMessage._decorators obj)) [] Hwf
                (λ n _, not_elem_of_nil n)) as Hkeys.
  destruct (AgentMessageSchema.signatures_loop _ []) as [signatures fields'].
  simpl in *.
  pose proof (missing_loop_spec (AgentMessageSchema.expect_fields self)
                signatures) as Hmiss.
  destruct (AgentMessageSchema.missing_loop _ signatures) as [[]|e]; simpl.
  - split_and!; [done | done | eauto |].
    intros f Hf. apply signed_names_stored; [done|].
    rewrite <- Hkeys. by apply Hmiss.
  - destruct Hmiss as (f & Hf & Hnot & ->). exists f.
    split_and!; [done | | done]. rewrite Hkeys in Hnot.
    destruct (stored_signature _ f) as [sig|] eqn:Hs; [|done].
    destruct Hnot. apply signed_names_stored; [done|]. by rewrite Hs.
Qed.
End pre_dump_facts.

Section pre_dump_theorem.
Context `{Models}.

(** C6. When some field of the policy has no stored signature, the
    pre-dump hook raises the missing-signature error for such a field,
    and so does the dump as a whole, whatever the field schema would
    have produced: the check runs before any wire map is built. *)
Theorem dump_missing_signature (self : AgentMessageSchema.t)
    (obj : AgentMessage.t) (f : string) :
  Dict.wf (DecoratorSet.fields (AgentMessage._decorators obj)) →
  f ∈ AgentMessageSchema.expect_fields self →
  stored_signature (AgentMessage._decorators obj) f = None →
  ∃ g, g ∈ AgentMessageSchema.expect_fields self
       ∧ stored_signature (AgentMessage._decorators obj) g = None
       ∧ AgentMessageSchema.check_dump_decorators self obj =
           Raise (BaseModelError ("Missing signature for field: " +:+ g))
       ∧ ∀ fields_dump,
           AgentMessageSchema.dump fields_dump self obj =
             Raise (BaseModelError ("Missing signature for field: " +:+ g)).
Proof.
  intros Hwf Hf Hnone.
  pose proof (check_dump_decorators_spec self obj Hwf) as Hspec.
  destruct (AgentMessageSchema.check_dump_decorators self obj)
    as [[obj' self']|e] eqn:Hpre.
  - destruct Hspec as (_ & _ & _ & Hall).
    destruct (Hall f Hf) as [sig Hsig]. congruence.
  - destruct Hspec as (g & Hg & Hgnone & ->). exists g.
    split_and!; try done. intros fields_dump.
    unfold AgentMessageSchema.dump. by rewrite Hpre.
Qed.
End pre_dump_theorem.

(** * The post-dump hooks *)

Section post_dump_facts.
Context `{Models}.

Lemma filter_all {A} (P : A → Prop) `{∀ x, Decision (P x)} (l : list A) :
  (∀ x, x ∈ l → P x) → filter P l = l.
Proof.
  induction l as [|a l IH]; intros Hall; [done|].
  rewrite (filter_cons_True P a) by (apply Hall; left).
  f_equal. apply IH. intros x Hx. apply Hall. by right.
Qed.

Lemma keys_update_disjoint {V} (d d' : Dict.t V) :
  Dict.wf d' →
  (∀ k, k ∈ Dict.keys d' → k ∉ Dict.keys d) →
  Dict.keys (Dict.update d d') = Dict.keys d ++ Dict.keys d'.
Proof.
  unfold Dict.update, Dict.wf. revert d.
  induction d' as [|[k v] d' IH]; intros d Hwf Hdis; simpl.
  - by rewrite app_nil_r.
  - apply NoDup_cons in Hwf as [Hk Hwf]. rewrite IH; [|done|].
    + rewrite keys_set.
      rewrite (proj2 (mem_false k d)) by (apply Hdis; left).
      by rewrite <- app_assoc.
    + intros k' Hk' [-> | Hd]%elem_keys_set; [done|].
      by apply (Hdis k'); [right|].
Qed.

Lemma wf_update {V} (d d' : Dict.t V) : Dict.wf d → Dict.wf (Dict.update d d').
Proof.
  unfold Dict.update. revert d.
  induction d' as [|[k v] d' IH]; intros d Hwf; simpl; [done|].
  apply IH. by apply wf_set.
Qed.

Lemma reserved_loop_spec (data : Dict.t Value) :
  ∃ result,
    AgentMessageSchema.reserved_loop ["@type"; "@id"] [] data =
      (result, Dict.remove "@id" (Dict.remove "@type" data))
    ∧ Dict.keys result = reserved_keys data.
Proof.
  unfold reserved_keys. simpl.
  destruct (Dict.get "@type" data) as [type_value|] eqn:Htype.
  - assert ("@type" ∈ Dict.keys data) as Hin by (apply get_is_Some; eauto).
    rewrite (filter_cons_True _ "@type") by done.
    rewrite get_remove_ne by done.
    destruct (Dict.get "@id" data) as [id_value|] eqn:Hid.
    + assert ("@id" ∈ Dict.keys data) as Hin' by (apply get_is_Some; eauto).
      rewrite (filter_cons_True _ "@id" []) by done.
      eexists. split; reflexivity.
    + apply get_None in Hid.
      rewrite (filter_cons_False _ "@id" []) by done.
      rewrite (remove_absent "@id").
      * eexists. split; reflexivity.
      * intros [_ ?]%elem_keys_remove. done.
  - apply get_None in Htype.
    rewrite (filter_cons_False _ "@type") by done.
    rewrite (remove_absent "@type") by done.
    destruct (Dict.get "@id" data) as [id_value|] eqn:Hid.
    + assert ("@id" ∈ Dict.keys data) as Hin' by (apply get_is_Some; eauto).
      rewrite (filter_cons_True _ "@id" []) by done.
      eexists. split; reflexivity.
    + apply get_None in Hid.
      rewrite (filter_cons_False _ "@id" []) by done.
      rewrite (remove_absent "@id") by done.
      eexists. split; reflexivity.
Qed.

Lemma keys_remove_reserved {V} (data : Dict.t V) :
  Dict.keys (Dict.remove "@id" (Dict.remove "@type" data)) = plain_keys data.
Proof.
  rewrite !keys_remove. unfold plain_keys.
  rewrite list_filter_filter. apply list_filter_iff. intros k.
  rewrite not_elem_of_cons, not_elem_of_cons. split.
  - intros [? ?]. split_and!; [done | done | apply not_elem_of_nil].
  - intros (? & ? & _). done.
Qed.

(** The keys after [dump_decorators]: the reserved keys, the decorator
    keys, the plain keys. *)
Lemma dump_decorators_keys (self : AgentMessageSchema.t)
    (data decorators_dict : Dict.t Value) :
  AgentMessageSchema._decorators_dict self = Some decorators_dict →
  Dict.wf data → Dict.wf decorators_dict →
  (∀ k, k ∈ Dict.keys data → DecoratorSet.has_marker k = false) →
  (∀ k, k ∈ Dict.keys decorators_dict → DecoratorSet.has_marker k = true) →
  ∃ out, AgentMessageSchema.dump_decorators self data = Ok out
         ∧ Dict.keys out =
             reserved_keys data ++ Dict.keys decorators_dict
             ++ plain_keys data.
Proof.
  intros Hdd Hwf Hwfd Hplain Hmarked.
  unfold AgentMessageSchema.dump_decorators.
  destruct (reserved_loop_spec data) as (result & -> & Hres).
  rewrite Hdd. eexists. split; [reflexivity|].
  assert (Dict.keys (Dict.update result decorators_dict) =
            reserved_keys data ++ Dict.keys decorators_dict) as Hk1.
  { rewrite keys_update_disjoint; [by rewrite Hres | done |].
    rewrite Hres. unfold reserved_keys.
    intros k Hk%Hmarked [_ Hr]%list_elem_of_filter.
    apply elem_of_cons in Hr as [-> | Hr]; [done|].
    apply list_elem_of_singleton in Hr as ->. done. }
  rewrite keys_update_disjoint.
  - rewrite Hk1, keys_remove_reserved. by rewrite <- app_assoc.
  - by apply wf_remove, wf_remove.
  - rewrite keys_remove_reserved, Hk1. unfold plain_keys.
    intros k [Hnres Hk]%list_elem_of_filter. rewrite elem_of_app.
    unfold reserved_keys.
    intros [[_ ?]%list_elem_of_filter | Hd]; [done|].
    apply Hmarked in Hd. apply Hplain in Hk. congruence.
Qed.
End post_dump_facts.

Section replace_facts.
Context `{Models}.
Implicit Types (signatures data out : Dict.t Value).

(** When the replacement gets through, every signed field was a key of
    the map, its key is gone and its signature key sits at the end. *)
Lemma replace_loop_keys signatures data out :
  AgentMessageSchema.replace_loop signatures data = Ok out →
  Dict.wf signatures →
  (∀ f, f ∈ Dict.keys signatures → DecoratorSet.has_marker f = false) →
  (∀ f, f ∈ Dict.keys signatures → sig_key f ∉ Dict.keys data) →
  Dict.keys out =
    filter (λ k, k ∉ Dict.keys signatures) (Dict.keys data)
    ++ (sig_key <$> Dict.keys signatures)
  ∧ ∀ f, f ∈ Dict.keys signatures → f ∈ Dict.keys data.
Proof.
  unfold Dict.wf. revert data.
  induction signatures as [|[f sig] rest IH]; intros data Hout Hwf Hun Hfresh;
    simpl in *.
  - injection Hout as <-. split.
    + rewrite app_nil_r. symmetry. apply filter_all.
      intros k _. apply not_elem_of_nil.
    + intros f Hf. by apply elem_of_nil in Hf.
  - apply NoDup_cons in Hwf as [Hf Hwf].
    unfold Dict.del in Hout.
    destruct (Dict.mem f data) eqn:Hmem; [|done]. simpl in Hout.
    apply mem_true in Hmem.
    assert (Dict.keys (Dict.set (f +:+ "~sig") sig (Dict.remove f data)) =
              filter (λ k, k ≠ f) (Dict.keys data) ++ [sig_key f]) as Hk1.
    { rewrite keys_set, keys_remove.
      destruct (Dict.mem _ (Dict.remove f data)) eqn:Hm; [|reflexivity].
      apply mem_true, elem_keys_remove in Hm as [_ Hin].
      by destruct (Hfresh f); [left|]. }
    apply IH in Hout as [Hkeys Hin]; [|done| |].
    + split.
      * rewrite Hkeys, Hk1, filter_app, list_filter_filter.
        rewrite (filter_cons_True _ (sig_key f) []).
        -- rewrite filter_nil, <- app_assoc. simpl. f_equal.
           apply list_filter_iff. intros k. rewrite not_elem_of_cons. tauto.
        -- intros Hbad.
           assert (DecoratorSet.has_marker (sig_key f) = false) as Hm
             by (apply Hun; by right).
           by rewrite has_marker_sig_key in Hm.
      * intros g [-> | Hg]%elem_of_cons; [done|].
        specialize (Hin g Hg). rewrite Hk1 in Hin.
        apply elem_of_app in Hin as [[_ ?]%list_elem_of_filter | Hbad]; [done|].
        apply list_elem_of_singleton in Hbad.
        destruct (unmarked_ne_sig_key g f); [|done]. apply Hun. by right.
    + intros g Hg. apply Hun. by right.
    + intros g Hg. rewrite Hk1. rewrite elem_of_app.
      intros [[_ Hbad]%list_elem_of_filter | Hbad%list_elem_of_singleton].
      * by apply (Hfresh g); [right|].
      * apply sig_key_inj in Hbad; [| apply Hun; by right | apply Hun; left].
        by subst.
Qed.

(** When a signed field is not a key of the map, the replacement raises
    [KeyError] for a signed field that is not a key of the map. *)
Lemma replace_loop_missing signatures data f :
  Dict.wf signatures →
  f ∈ Dict.keys signatures →
  DecoratorSet.has_marker f = false →
  f ∉ Dict.keys data →
  ∃ g, AgentMessageSchema.replace_loop signatures data = Raise (KeyError g)
       ∧ g ∈ Dict.keys signatures ∧ g ∉ Dict.keys data.
Proof.
  unfold Dict.wf. revert data.
  induction signatures as [|[h sig] rest IH]; intros data Hwf Hf Hun Hnot;
    simpl in *.
  - by apply elem_of_nil in Hf.
  - apply NoDup_cons in Hwf as [Hh Hwf]. unfold Dict.del.
    destruct (Dict.mem h data) eqn:Hmem; simpl.
    + apply mem_true in Hmem.
      apply elem_of_cons in Hf as [-> | Hf]; [done|].
      destruct (IH (Dict.set (h +:+ "~sig") sig (Dict.remove h data)))
        as (g & Hraise & Hg & Hgnot); try done.
      { intros [Heq | [_ ?]%elem_keys_remove]%elem_keys_set; [|done].
        by apply (unmarked_ne_sig_key f h). }
      exists g. split_and!; [done | by right |].
      intros Hgd. apply Hgnot. apply elem_keys_set. right.
      apply elem_keys_remove. split; [|done]. by intros ->.
    + apply mem_false in Hmem. exists h. split_and!; [done | left | done].
Qed.

Lemma split_key_kind (field kind x t : string) :
  DecoratorSet.has_marker t = false →
  DecoratorSet.split_key (field +:+ String "~" kind) = Some (x, t) →
  kind = t.
Proof.
  intros Ht. revert x. induction field as [|c field IH]; intros x; simpl.
  - by intros [= _ ->].
  - case_decide.
    + intros [= _ Hbad].
      pose proof (has_marker_app field kind) as Hm. congruence.
    + destruct (DecoratorSet.split_key _) as [[a b]|] eqn:Hs; [|done].
      intros [= _ ->]. by apply (IH a).
Qed.

Lemma split_key_kind_sig (field kind x : string) :
  DecoratorSet.split_key (field +:+ String "~" kind) = Some (x, "sig") →
  kind = "sig".
Proof. by apply split_key_kind. Qed.

Lemma signatures_loop_fields (fields : Dict.t (Dict.t Decorator))
    (acc : Dict.t Value) :
  (AgentMessageSchema.signatures_loop fields acc).2 =
    strip_signature <$> fields.
Proof.
  revert acc. induction fields as [|[n fd] rest IH]; intros acc; simpl;
    [done|].
  destruct (Dict.get "sig" fd) as [sig|] eqn:Hsig.
  - specialize (IH (Dict.set n (serialize sig) acc)).
    destruct (AgentMessageSchema.signatures_loop rest _) as [s r].
    simpl in *. by rewrite IH.
  - specialize (IH acc).
    destruct (AgentMessageSchema.signatures_loop rest _) as [s r].
    simpl in *. rewrite IH. f_equal.
    unfold strip_signature. simpl. f_equal. symmetry.
    apply remove_absent. by apply get_None.
Qed.

(** The snapshot emits no signature key of an ordinary field name. *)
Lemma snapshot_no_sig_key (decorators : DecoratorSet.t) (f : string) :
  f ≠ "" → DecoratorSet.has_marker f = false →
  sig_key f ∉ Dict.keys (DecoratorSet.to_dict (dump_snapshot decorators)).
Proof.
  intros Hne Hun Hin. unfold DecoratorSet.to_dict in Hin.
  pose proof (split_key_unmarked f "sig" Hun) as Hsplit.
  apply keys_update_subset in Hin as [Hin | Hin];
    [by apply elem_of_nil in Hin|].
  unfold Dict.keys in Hin. rewrite fmap_app, elem_of_app in Hin.
  destruct Hin as [Hin | Hin].
  - apply list_elem_of_fmap in Hin as ([k1 v1] & Hk & Hin).
    apply list_elem_of_fmap in Hin as ([name d] & [= -> ->] & _).
    simpl in Hk. unfold sig_key in Hk. simpl in Hsplit.
    rewrite Hk in Hsplit. simpl in Hsplit. by injection Hsplit as <-.
  - apply list_elem_of_fmap in Hin as ([k1 v1] & Hk & Hin).
    apply list_elem_of_In, in_flat_map in Hin as ([field fd] & Hfd & Hin).
    apply list_elem_of_In, list_elem_of_fmap in Hin
      as ([kind d] & [= -> ->] & Hkind).
    apply list_elem_of_In in Hfd. simpl in Hfd.
    apply list_elem_of_fmap in Hfd as ([field0 fd0] & [= -> ->] & _).
    simpl in *. unfold sig_key in Hk. rewrite Hk in Hsplit.
    apply split_key_kind_sig in Hsplit as ->.
    assert ("sig" ∈ Dict.keys (Dict.remove "sig" fd0)) as Hbad.
    { apply list_elem_of_fmap. by exists ("sig", d). }
    by apply elem_keys_remove in Hbad as [? _].
Qed.
End replace_facts.

Section dump_facts.
Context `{Models}.

Lemma elem_keys_update {V} (d d' : Dict.t V) k :
  k ∈ Dict.keys (Dict.update d d') ↔ k ∈ Dict.keys d ∨ k ∈ Dict.keys d'.
Proof.
  split; [apply keys_update_subset|].
  unfold Dict.update. revert d.
  induction d' as [|[k' v'] d' IH]; intros d; simpl.
  - intros [? | Hnil]; [done | by apply elem_of_nil in Hnil].
  - intros [Hd | [-> | Hd']%elem_of_cons]; apply IH.
    + left. apply elem_keys_set. by right.
    + left. apply elem_keys_set. by left.
    + by right.
Qed.

Lemma reserved_loop_keys reserved (result data : Dict.t Value) k :
  (k ∈ Dict.keys (AgentMessageSchema.reserved_loop reserved result data).1
   ∨ k ∈ Dict.keys (AgentMessageSchema.reserved_loop reserved result data).2)
  ↔ (k ∈ Dict.keys result ∨ k ∈ Dict.keys data).
Proof.
  revert result data.
  induction reserved as [|key rest IH]; intros result data; simpl; [done|].
  destruct (Dict.get key data) as [v|] eqn:Hget; [|apply IH].
  rewrite IH, elem_keys_set, elem_keys_remove.
  assert (key ∈ Dict.keys data) as Hkey by (apply get_is_Some; eauto).
  destruct (decide (k = key)) as [-> | Hne]; tauto.
Qed.

(** [dump_decorators] keeps every key of the plain map and adds the
    decorator keys. *)
Lemma dump_decorators_elem (self : AgentMessageSchema.t)
    (data decorators_dict : Dict.t Value) :
  AgentMessageSchema._decorators_dict self = Some decorators_dict →
  ∃ out, AgentMessageSchema.dump_decorators self data = Ok out
         ∧ ∀ k, k ∈ Dict.keys out ↔
                k ∈ Dict.keys data ∨ k ∈ Dict.keys decorators_dict.
Proof.
  intros Hdd. unfold AgentMessageSchema.dump_decorators.
  pose proof (reserved_loop_keys ["@type"; "@id"] [] data) as Hres.
  destruct (AgentMessageSchema.reserved_loop _ [] data) as [result data'].
  rewrite Hdd. eexists. split; [reflexivity|]. intros k.
  rewrite !elem_keys_update. specialize (Hres k). simpl in Hres.
  rewrite elem_of_nil in Hres. tauto.
Qed.

(** What the pre-dump hook leaves in the schema when it returns. *)
Lemma check_dump_decorators_state (self self' : AgentMessageSchema.t)
    (obj obj' : AgentMessage.t) :
  Dict.wf (DecoratorSet.fields (AgentMessage._decorators obj)) →
  AgentMessageSchema.check_dump_decorators self obj = Ok (obj', self') →
  obj' = obj
  ∧ AgentMessageSchema._decorators_dict self' =
      Some (DecoratorSet.to_dict (dump_snapshot (AgentMessage._decorators obj)))
  ∧ Dict.keys (AgentMessageSchema._signatures self') =
      signed_names (DecoratorSet.fields (AgentMessage._decorators obj)).
Proof.
  intros Hwf. unfold AgentMessageSchema.check_dump_decorators, DecoratorSet.copy.
  pose proof (signatures_loop_keys
                (DecoratorSet.fields (AgentMessage._decorators obj)) [] Hwf
                (λ n _, not_elem_of_nil n)) as Hkeys.
  pose proof (signatures_loop_fields
                (DecoratorSet.fields (AgentMessage._decorators obj)) [])
    as Hfields.
  destruct (AgentMessageSchema.signatures_loop _ []) as [signatures fields'].
  simpl in *. subst fields'.
  destruct (AgentMessageSchema.missing_loop _ signatures) as [[]|e];
    simpl; [|done].
  intros [= <- <-]. done.
Qed.

Lemma check_dump_decorators_passes (self : AgentMessageSchema.t)
    (obj : AgentMessage.t) :
  Dict.wf (DecoratorSet.fields (AgentMessage._decorators obj)) →
  (∀ f, f ∈ AgentMessageSchema.expect_fields self →
        is_Some (stored_signature (AgentMessage._decorators obj) f)) →
  ∃ self', AgentMessageSchema.check_dump_decorators self obj = Ok (obj, self').
Proof.
  intros Hwf Hall.
  pose proof (check_dump_decorators_spec self obj Hwf) as Hspec.
  destruct (AgentMessageSchema.check_dump_decorators self obj)
    as [[obj' self']|e].
  - destruct Hspec as [-> _]. eauto.
  - destruct Hspec as (f & Hf & Hnone & _).
    destruct (Hall f Hf) as [sig Hsig]. congruence.
Qed.
End dump_facts.

Section dump_theorems.
Context `{Models}.
Variable fields_dump : AgentMessage.t → result (Dict.t Value).

(** C2. When the dump of a message returns, the keys of the output are,
    in this order: ["@type"], then ["@id"] (each as far as the field
    schema emitted it), the wire keys of the decorator snapshot, the
    plain keys of the fields that carry no signature, and one
    [<field>~sig] key per field that carries a signature; no field that
    carries a signature appears under its bare key.  Field names that
    carry a signature are ordinary field names (non-empty, free of the
    decorator marker, not a reserved key) and the field schema emits no
    key with the decorator marker. *)
Theorem dump_key_order (self : AgentMessageSchema.t) (obj : AgentMessage.t)
    (data out : Dict.t Value) :
  let decorators := AgentMessage._decorators obj in
  let signed := signed_names (DecoratorSet.fields decorators) in
  Dict.wf (DecoratorSet.fields decorators) →
  (∀ f, f ∈ signed →
     f ≠ "" ∧ DecoratorSet.has_marker f = false ∧ f ∉ ["@type"; "@id"]) →
  fields_dump obj = Ok data →
  Dict.wf data →
  (∀ k, k ∈ Dict.keys data → DecoratorSet.has_marker k = false) →
  AgentMessageSchema.dump fields_dump self obj = Ok out →
  Dict.keys out =
    reserved_keys data
    ++ Dict.keys (DecoratorSet.to_dict (dump_snapshot decorators))
    ++ filter (λ k, k ∉ signed) (plain_keys data)
    ++ (sig_key <$> signed)
  ∧ ∀ f, f ∈ signed → f ∉ Dict.keys out.
Proof.
  intros decorators signed Hwf Hsigned Hdata Hwfd Hplain Hdump.
  unfold AgentMessageSchema.dump in Hdump.
  destruct (AgentMessageSchema.check_dump_decorators self obj)
    as [[obj' self']|e] eqn:Hpre; [|done]. simpl in Hdump.
  destruct (check_dump_decorators_state self self' obj obj' Hwf Hpre)
    as (-> & Hdd & Hsigs).
  rewrite Hdata in Hdump. simpl in Hdump.
  set (dd := DecoratorSet.to_dict (dump_snapshot decorators)) in *.
  assert (Dict.wf dd) as Hwfdd.
  { apply wf_update. constructor. }
  destruct (dump_decorators_keys self' data dd Hdd Hwfd Hwfdd Hplain)
    as (out1 & Hout1 & Hkeys1).
  { intros k. apply to_dict_marked. }
  rewrite Hout1 in Hdump. simpl in Hdump.
  unfold AgentMessageSchema.replace_signatures in Hdump.
  assert (∀ k, k ∈ reserved_keys data → k ∈ ["@type"; "@id"]) as Hreserved.
  { intros k [_ ?]%list_elem_of_filter. done. }
  apply replace_loop_keys in Hdump as [Hkeys _].
  - rewrite Hsigs in Hkeys. fold signed in Hkeys.
    assert (Dict.keys out =
              reserved_keys data ++ Dict.keys dd
              ++ filter (λ k, k ∉ signed) (plain_keys data)
              ++ (sig_key <$> signed)) as Hfinal.
    { rewrite Hkeys, Hkeys1, !filter_app.
      rewrite (filter_all _ (reserved_keys data)).
      - rewrite (filter_all _ (Dict.keys dd)).
        + by rewrite <- !app_assoc.
        + intros k Hk%to_dict_marked Hs.
          destruct (Hsigned k Hs) as (_ & Hun & _). congruence.
      - intros k Hk%Hreserved Hs. by destruct (Hsigned k Hs) as (_ & _ & ?). }
    split; [exact Hfinal|].
    intros f Hf. rewrite Hfinal, !elem_of_app.
    destruct (Hsigned f Hf) as (_ & Hun & Hres).
    intros [?%Hreserved | [Hd | [[? _]%list_elem_of_filter | Hs]]]; try done.
    + apply to_dict_marked in Hd. congruence.
    + apply list_elem_of_fmap in Hs as (g & -> & _).
      by rewrite has_marker_sig_key in Hun.
  - unfold Dict.wf. rewrite Hsigs. by apply signed_names_NoDup.
  - rewrite Hsigs. intros f Hf. by destruct (Hsigned f Hf) as (_ & ? & _).
  - rewrite Hsigs, Hkeys1. intros f Hf.
    destruct (Hsigned f Hf) as (Hne & Hun & _).
    rewrite !elem_of_app.
    intros [Hres%Hreserved | [Hd | [_ Hp]%list_elem_of_filter]].
    + pose proof (has_marker_sig_key f) as Hm.
      apply elem_of_cons in Hres as [Heq | Hres]; [by rewrite Heq in Hm|].
      apply list_elem_of_singleton in Hres. by rewrite Hres in Hm.
    + by apply (snapshot_no_sig_key decorators f).
    + apply Hplain in Hp. by rewrite has_marker_sig_key in Hp.
Qed.

(** C10. [replace_signatures] deletes the plain key of every field that
    carries a signature without checking that the key is there.  Once
    the pre-dump check has passed and the field schema has produced its
    plain map, a signed field with no value in that map makes the dump
    raise [KeyError], for a signed field that is absent from the map; so
    a dump that returns had a plain value for every signed field. *)
Theorem dump_requires_plain_value (self : AgentMessageSchema.t)
    (obj : AgentMessage.t) (data : Dict.t Value) :
  let decorators := AgentMessage._decorators obj in
  Dict.wf (DecoratorSet.fields decorators) →
  fields_dump obj = Ok data →
  ((∀ p, p ∈ AgentMessageSchema.expect_fields self →
         is_Some (stored_signature decorators p)) →
   ∀ f, is_Some (stored_signature decorators f) →
        DecoratorSet.has_marker f = false →
        f ∉ Dict.keys data →
        ∃ g, AgentMessageSchema.dump fields_dump self obj = Raise (KeyError g)
             ∧ is_Some (stored_signature decorators g)
             ∧ g ∉ Dict.keys data)
  ∧ (∀ out, AgentMessageSchema.dump fields_dump self obj = Ok out →
       ∀ f, is_Some (stored_signature decorators f) →
            DecoratorSet.has_marker f = false →
            f ∈ Dict.keys data).
Proof.
  intros decorators Hwf Hdata. subst decorators.
  set (decorators := AgentMessage._decorators obj) in *.
  assert (∀ self' f,
            AgentMessageSchema.check_dump_decorators self obj = Ok (obj, self') →
            is_Some (stored_signature decorators f) →
            DecoratorSet.has_marker f = false →
            f ∉ Dict.keys data →
            ∃ g, AgentMessageSchema.dump fields_dump self obj
                   = Raise (KeyError g)
                 ∧ is_Some (stored_signature decorators g)
                 ∧ g ∉ Dict.keys data) as Hfail.
  { intros self' f Hpre Hf Hun Hnot.
    destruct (check_dump_decorators_state self self' obj obj Hwf Hpre)
      as (_ & Hdd & Hsigs).
    destruct (dump_decorators_elem self' data _ Hdd) as (out1 & Hout1 & Hk1).
    assert (Dict.wf (AgentMessageSchema._signatures self')) as Hwfs.
    { unfold Dict.wf. rewrite Hsigs. by apply signed_names_NoDup. }
    destruct (replace_loop_missing (AgentMessageSchema._signatures self')
                out1 f Hwfs) as (g & Hraise & Hg & Hgnot); try done.
    - rewrite Hsigs. by apply signed_names_stored.
    - rewrite Hk1. intros [? | Hd%to_dict_marked]; [done | congruence].
    - exists g. split_and!.
      + unfold AgentMessageSchema.dump. rewrite Hpre. simpl.
        rewrite Hdata. simpl. rewrite Hout1. simpl. exact Hraise.
      + apply signed_names_stored; [done|]. unfold decorators.
        by rewrite <- Hsigs.
      + intros Hgd. apply Hgnot. apply Hk1. by left. }
  split.
  - intros Hpolicy f Hf Hun Hnot.
    destruct (check_dump_decorators_passes self obj Hwf Hpolicy)
      as [self' Hpre].
    by apply (Hfail self' f).
  - intros out Hdump f Hf Hun.
    destruct (decide (f ∈ Dict.keys data)) as [?|Hnot]; [done|].
    destruct (AgentMessageSchema.check_dump_decorators self obj)
      as [[obj' self']|e] eqn:Hpre.
    + destruct (check_dump_decorators_state self self' obj obj' Hwf Hpre)
        as (-> & _).
      destruct (Hfail self' f eq_refl Hf Hun Hnot) as (g & Hraise & _).
      congruence.
    + unfold AgentMessageSchema.dump in Hdump. by rewrite Hpre in Hdump.
Qed.
End dump_theorems.

(** * Dump followed by load *)

Section round_trip_facts.
Context `{Models}.

Lemma get_remove_eq {V} (d : Dict.t V) k : Dict.get k (Dict.remove k d) = None.
Proof. apply get_None. by intros [? _]%elem_keys_remove. Qed.

Lemma get_update {V} (d d' : Dict.t V) k :
  Dict.wf d' →
  Dict.get k (Dict.update d d') =
    match Dict.get k d' with Some v => Some v | None => Dict.get k d end.
Proof.
  unfold Dict.update, Dict.wf. revert d.
  induction d' as [|[k' v'] d' IH]; intros d Hwf; simpl; [done|].
  apply NoDup_cons in Hwf as [Hk' Hwf]. rewrite IH by done.
  case_decide as Hk.
  - subst. rewrite (proj2 (get_None k' d')) by done. apply get_set_eq.
  - destruct (Dict.get k d'); [done|]. by apply get_set_ne.
Qed.


(** The values that [dump_decorators] moves to the front. *)
Lemma reserved_loop_get (data : Dict.t Value) :
  ∃ result,
    AgentMessageSchema.reserved_loop ["@type"; "@id"] [] data =
      (result, Dict.remove "@id" (Dict.remove "@type" data))
    ∧ Dict.get "@type" result = Dict.get "@type" data
    ∧ Dict.get "@id" result = Dict.get "@id" data
    ∧ ∀ k, k ≠ "@type" → k ≠ "@id" → Dict.get k result = None.
Proof.
  simpl.
  destruct (Dict.get "@type" data) as [type_value|] eqn:Htype.
  - rewrite get_remove_ne by done.
    destruct (Dict.get "@id" data) as [id_value|] eqn:Hid.
    + eexists. split; [reflexivity|]. simpl. split_and!; try done.
      intros k ? ?. by rewrite !decide_False.
    + rewrite (remove_absent "@id")
        by (apply get_None in Hid; by intros [_ ?]%elem_keys_remove).
      eexists. split; [reflexivity|]. simpl. split_and!; try done.
      intros k ? ?. by rewrite !decide_False.
  - rewrite (remove_absent "@type") by (by apply get_None).
    destruct (Dict.get "@id" data) as [id_value|] eqn:Hid.
    + eexists. split; [reflexivity|]. simpl. split_and!; try done.
      intros k ? ?. by rewrite !decide_False.
    + rewrite (remove_absent "@id") by (by apply get_None).
      eexists. split; [reflexivity|]. simpl. split_and!; done.
Qed.

(** [dump_decorators] keeps the value of every unmarked key. *)
Lemma dump_decorators_get (self : AgentMessageSchema.t)
    (data decorators_dict : Dict.t Value) :
  AgentMessageSchema._decorators_dict self = Some decorators_dict →
  Dict.wf data → Dict.wf decorators_dict →
  (∀ k, k ∈ Dict.keys decorators_dict → DecoratorSet.has_marker k = true) →
  ∃ out, AgentMessageSchema.dump_decorators self data = Ok out
         ∧ Dict.wf out
         ∧ ∀ k, DecoratorSet.has_marker k = false →
                Dict.get k out = Dict.get k data.
Proof.
  intros Hdd Hwf Hwfd Hmarked.
  unfold AgentMessageSchema.dump_decorators.
  destruct (reserved_loop_spec data) as (result & Hloop & Hkeys).
  destruct (reserved_loop_get data) as (result' & Hloop' & Hget).
  rewrite Hloop in Hloop'. injection Hloop' as <-. rewrite Hloop, Hdd.
  eexists. split; [reflexivity|]. split.
  { apply wf_update, wf_update. unfold Dict.wf. rewrite Hkeys.
    apply NoDup_filter, NoDup_cons. split; [|apply NoDup_singleton].
    by intros ?%list_elem_of_singleton. }
  intros k Hk.
  rewrite get_update by (by apply wf_remove, wf_remove).
  rewrite get_update by done.
  assert (Dict.get k decorators_dict = None) as ->.
  { apply get_None. intros Hin%Hmarked. congruence. }
  destruct Hget as (Hgt & Hgi & Hgo).
  destruct (decide (k = "@id")) as [-> | Hi].
  { by rewrite get_remove_eq. }
  rewrite get_remove_ne by done.
  destruct (decide (k = "@type")) as [-> | Ht].
  { by rewrite get_remove_eq. }
  rewrite get_remove_ne by done. rewrite Hgo by done.
  by destruct (Dict.get k data).
Qed.
End round_trip_facts.

Section extraction_facts.
Context `{Models}.
Implicit Types (decorators : DecoratorSet.t).










End extraction_facts.

Section round_trip_theorem.
Context `{Models}.
Variable fields_dump : AgentMessage.t → result (Dict.t Value).
Variable fields_load : Dict.t Value → result (option string * Dict.t Value).

End round_trip_theorem.

(** * Concrete runs *)

Section concrete_runs.
Import Sample SampleSchema.

Local Ltac by_computation :=
  apply (bool_decide_eq_true_1 _); vm_compute; reflexivity.

(** C1, witness.
    Loading [signed_wire] under the policy [("value",)]: the extraction
    returns, and the plain map gives [value] the decoded value. *)
Lemma load_signed_fields_check_witness :
  Dict.wf (DecoratorSet.fields
             (AgentMessageSchema._decorators (schema (Some ["value"]))))
  ∧ DecoratorSet.extract_decorators
      (AgentMessageSchema._decorators (schema (Some ["value"]))) signed_wire
    = Ok (signed_wire_plain, signed_wire_decorators)
  ∧ ∃ sig,
      stored_signature signed_wire_decorators "value" = Some sig
      ∧ Dict.get "value" signed_wire_processed = Some (decode sig).1.
Proof.
  assert (Dict.wf (DecoratorSet.fields
                     (AgentMessageSchema._decorators (schema (Some ["value"])))))
    as Hwf by constructor.
  split; [exact Hwf|]. split; [reflexivity|].
  apply (proj2 (proj2 (load_signed_fields_check (schema (Some ["value"]))
                         signed_wire signed_wire_plain signed_wire_decorators
                         Hwf eq_refl))
           signed_wire_processed
           (AgentMessageSchema.mk (schema_kind (Some ["value"]))
              signed_wire_decorators None [])
           eq_refl "value").
  left.
Defined.

(** C2, witness.
    Dumping [value_signed_message]: the order of the keys, and the bare
    key [value] is not in the output. *)
Lemma dump_key_order_witness :
  AgentMessageSchema.dump fields_dump (schema (Some ["value"]))
    value_signed_message = Ok signed_wire
  ∧ Dict.keys signed_wire =
      reserved_keys value_signed_plain
      ++ Dict.keys (DecoratorSet.to_dict
                      (dump_snapshot
                         (AgentMessage._decorators value_signed_message)))
      ++ filter (λ k, k ∉ ["value"]) (plain_keys value_signed_plain)
      ++ (sig_key <$> ["value"])
  ∧ "value" ∉ Dict.keys signed_wire.
Proof.
  split; [reflexivity|].
  destruct (dump_key_order fields_dump (schema (Some ["value"]))
              value_signed_message value_signed_plain signed_wire)
    as [Horder Hbare].
  - by_computation.
  - apply Forall_forall. by_computation.
  - reflexivity.
  - by_computation.
  - apply Forall_forall. by_computation.
  - reflexivity.
  - split; [exact Horder | apply Hbare; left].
Defined.

(** C3, witness.
    Verifying the signature of [value] on [signed_message] with the
    expected signer ["K"]. *)
Lemma verify_signed_field_cases_witness :
  stored_signature (AgentMessage._decorators signed_message) "value"
    = Some (Sig "K" "v" true)
  ∧ verify (Sig "K" "v" true) tt = true
  ∧ (AgentMessage.verify_signed_field signed_message "value" tt (Some "K")).1
    = Ok "K".
Proof.
  split; [reflexivity|]. split; [reflexivity|].
  apply (proj2 (proj2 (proj2 (verify_signed_field_cases signed_message
                                "value" tt (Some "K"))))
           (Sig "K" "v" true) eq_refl eq_refl).
  right. reflexivity.
Defined.

(** C4, witness.
    [signed_message] holds three signatures and the second one fails:
    the wallet sees the first two only. *)
Lemma verify_signatures_cases_witness :
  verify (Sig "K2" "o" false) tt = false
  ∧ AgentMessage.verify_signatures_calls signed_message tt
    = (false, [Sig "K" "v" true; Sig "K2" "o" false]).
Proof.
  split; [reflexivity|].
  apply (proj1 (proj2 (verify_signatures_cases signed_message tt))
           [[("sig", Sig "K" "v" true)]] [("sig", Sig "K2" "o" false)]
           [[("sig", Sig "K3" "l" true)]] (Sig "K2" "o" false) eq_refl);
    [|reflexivity|reflexivity].
  intros f s Hf%list_elem_of_singleton Hs. subst f.
  injection Hs as <-. reflexivity.
Defined.

(** C5, witness.
    Threading [plain_message] after [signed_message], whose thread
    decorator is [{thid: "T", pthid: "P"}]. *)
Lemma assign_thread_from_cases_witness :
  AgentMessage._thread signed_message = Some (Thread (Some "T") (Some "P"))
  ∧ AgentMessage._thread
      (AgentMessage.assign_thread_from plain_message (Some signed_message))
    = Some (Thread (Some "T") (Some "P")).
Proof.
  split; [reflexivity|].
  apply (proj1 (proj2 (proj2 (assign_thread_from_cases plain_message)))
           signed_message (Thread (Some "T") (Some "P")) "T" eq_refl eq_refl).
  discriminate.
Defined.

(** C6, witness.
    Dumping [value_missing_message] under a policy that also asks for a
    signature on [other]. *)
Lemma dump_missing_signature_witness :
  "other" ∈ AgentMessageSchema.expect_fields (schema (Some ["value"; "other"]))
  ∧ stored_signature (AgentMessage._decorators value_missing_message) "other"
    = None
  ∧ ∃ g, g ∈ AgentMessageSchema.expect_fields
               (schema (Some ["value"; "other"]))
         ∧ stored_signature (AgentMessage._decorators value_missing_message) g
           = None
         ∧ AgentMessageSchema.check_dump_decorators
             (schema (Some ["value"; "other"])) value_missing_message
           = Raise (BaseModelError ("Missing signature for field: " +:+ g))
         ∧ ∀ fields_dump,
             AgentMessageSchema.dump fields_dump
               (schema (Some ["value"; "other"])) value_missing_message
             = Raise (BaseModelError ("Missing signature for field: " +:+ g)).
Proof.
  assert ("other" ∈ AgentMessageSchema.expect_fields
                      (schema (Some ["value"; "other"]))) as Hin
    by by_computation.
  split; [exact Hin|]. split; [reflexivity|].
  apply (dump_missing_signature (schema (Some ["value"; "other"]))
           value_missing_message "other"); [by_computation | exact Hin |].
  reflexivity.
Defined.

(** C10, witness.
    Dumping [value_missing_message], which holds a signature for
    [value] and no value for it. *)
Lemma dump_requires_plain_value_witness :
  ("value" ∉ Dict.keys value_missing_plain)
  ∧ ∃ g, AgentMessageSchema.dump fields_dump (schema (Some ["value"]))
           value_missing_message = Raise (KeyError g)
         ∧ is_Some (stored_signature
                      (AgentMessage._decorators value_missing_message) g)
         ∧ g ∉ Dict.keys value_missing_plain.
Proof.
  assert ("value" ∉ Dict.keys value_missing_plain) as Hnot by by_computation.
  split; [exact Hnot|].
  destruct (dump_requires_plain_value fields_dump (schema (Some ["value"]))
              value_missing_message value_missing_plain)
    as [Hfail _]; [by_computation | reflexivity |].
  apply (Hfail ltac:(apply Forall_forall; by_computation) "value");
    [by_computation | reflexivity | exact Hnot].
Defined.

(** C7, witness.
    A message built without an id and then signed and threaded. *)
Lemma message_id_generated_and_kept_witness :
  AgentMessage.__init__ basic_kind hello_attrs "uuid-1" None None
    = Ok fresh_message
  ∧ AgentMessage._id
      (foldl (λ m o, AgentMessage.apply getattr o m) fresh_message
         [AgentMessage.Sign_field "content" "K" tt None;
          AgentMessage.Assign_thread_id (Some "T") None])
    = "uuid-1".
Proof.
  split; [reflexivity|].
  apply (proj2 (proj2 (message_id_generated_and_kept (H := models) basic_kind
                         hello_attrs "uuid-1" None None fresh_message
                         eq_refl)) getattr).
  intros o val Hin.
  apply elem_of_cons in Hin as [-> | Hin]; [done|].
  apply list_elem_of_singleton in Hin as ->. done.
Defined.

(** C8, witness.
    Constructing an instance of a kind declared with a schema class and
    without a type. *)
Lemma message_type_checked_at_construction_witness :
  declared_truthy
    (AgentMessage.schema_class (AgentMessage.meta abstract_kind)) = true
  ∧ declared_falsy
      (AgentMessage.message_type (AgentMessage.meta abstract_kind)) = true
  ∧ AgentMessage.__init__ abstract_kind [] "uuid-1" None None
    = Raise (TypeError
               "Can't instantiate abstract class AbstractMessage with no message_type").
Proof.
  split; [reflexivity|]. split; [reflexivity|].
  apply (proj1 (message_type_checked_at_construction (H := models)
                  abstract_kind [] "uuid-1" None None)
           eq_refl eq_refl).
Defined.



(** C7, counterexample: the [_id] setter changes the id of a
    constructed message. *)
Lemma message_id_setter_counterexample :
  ∃ self,
    AgentMessage.__init__ basic_kind [] "uuid-1" None None = Ok self
    ∧ AgentMessage._id
        (AgentMessage.apply getattr (AgentMessage.Set_id "other") self)
      ≠ AgentMessage._id self.
Proof. eexists. split; [reflexivity|]. discriminate. Qed.

(** C8, counterexample: a kind with a schema class and without a type
    is declared without any error, and the error comes when an instance
    is constructed.  For a kind that declares nothing the error at that
    point is the one of the base class. *)
Lemma abstract_kind_counterexample :
  AgentMessage.define_kind "AbstractMessage" abstract_meta = Ok abstract_kind
  ∧ AgentMessage.__init__ abstract_kind [] "uuid-1" None None
    = Raise (TypeError
               "Can't instantiate abstract class AbstractMessage with no message_type")
  ∧ AgentMessage.define_kind "UnboundMessage" unbound_meta = Ok unbound_kind
  ∧ AgentMessage.__init__ unbound_kind [] "uuid-1" None None
    = Raise (TypeError
               "Can't instantiate abstract class UnboundMessage with no schema_class").
Proof. split_and!; reflexivity. Qed.


(** C9, a second counterexample: the empty id.  The [_id] setter
    accepts the empty string, the
    dump writes it under [@id], and the constructor that the load calls
    takes an empty [_id] as a missing one ([if _id:]) and generates a new
    id: the loaded message has another id than the original. *)
Lemma round_trip_empty_id :
  (∀ f, stored_signature
          (AgentMessage._decorators
             (AgentMessage._id_setter plain_message "")) f = None)
  ∧ AgentMessageSchema.dump fields_dump (schema None)
      (AgentMessage._id_setter plain_message "") = Ok empty_id_wire
  ∧ ∃ obj',
      AgentMessageSchema.load fields_load (schema None) basic_kind "uuid-1"
        empty_id_wire = Ok obj'
      ∧ AgentMessage._id obj' = "uuid-1"
      ∧ AgentMessage._id obj'
        ≠ AgentMessage._id (AgentMessage._id_setter plain_message "").
Proof.
  split; [intros f; reflexivity|]. split; [reflexivity|].
  eexists. split; [reflexivity|]. split; [reflexivity | discriminate].
Qed.
End concrete_runs.

(** * Further properties of [AgentMessage] *)

Section signature_store.
Context `{Models}.
Implicit Types (self msg : AgentMessage.t) (wallet : Wallet).

Lemma set_absent {V} (d : Dict.t V) k v :
  k ∉ Dict.keys d → Dict.set k v d = d ++ [(k, v)].
Proof.
  induction d as [|[k' v'] d IH]; simpl; [done|].
  intros [Hne Hk]%not_elem_of_cons. rewrite decide_False by done.
  by rewrite IH.
Qed.

Lemma set_set {V} (d : Dict.t V) k v v' :
  Dict.set k v' (Dict.set k v d) = Dict.set k v' d.
Proof.
  induction d as [|[k0 v0] d IH]; simpl.
  - by rewrite decide_True.
  - case_decide as Hk; simpl.
    + by rewrite decide_True.
    + rewrite decide_False by done. by rewrite IH.
Qed.

Lemma stored_set_signature_eq self f s :
  stored_signature (AgentMessage._decorators (AgentMessage.set_signature self f s))
    f = Some s.
Proof.
  unfold AgentMessage.set_signature, DecoratorSet.field, stored_signature.
  destruct (Dict.get f (DecoratorSet.fields (AgentMessage._decorators self)))
    as [fd|]; simpl; rewrite get_set_eq.
  - apply get_set_eq.
  - exact (get_set_eq "sig" s []).
Qed.

Lemma stored_set_signature_ne self f g s :
  g ≠ f →
  stored_signature (AgentMessage._decorators (AgentMessage.set_signature self f s))
    g = stored_signature (AgentMessage._decorators self) g.
Proof.
  intros Hne.
  unfold AgentMessage.set_signature, DecoratorSet.field, stored_signature.
  destruct (Dict.get f (DecoratorSet.fields (AgentMessage._decorators self)))
    as [fd|]; simpl; by rewrite !get_set_ne.
Qed.

Lemma stored_get_signature self f g :
  stored_signature (AgentMessage._decorators (AgentMessage.get_signature self f).2)
    g = stored_signature (AgentMessage._decorators self) g.
Proof.
  unfold AgentMessage.get_signature, DecoratorSet.field, stored_signature.
  destruct (Dict.get f (DecoratorSet.fields (AgentMessage._decorators self)))
    as [fd|] eqn:Hf; simpl; [done|].
  destruct (decide (g = f)) as [-> | Hne].
  - by rewrite get_set_eq, Hf.
  - by rewrite get_set_ne.
Qed.

Lemma verify_loop_app_empty wallet (values : list (Dict.t Decorator)) :
  AgentMessage.verify_loop wallet (values ++ [[]]) =
    AgentMessage.verify_loop wallet values.
Proof.
  induction values as [|fd rest IH]; simpl; [done|].
  destruct (Dict.get "sig" fd) as [sig|]; [|done].
  destruct (negb (verify sig wallet)); [done|]. by rewrite IH.
Qed.

Lemma verify_get_signature self f wallet :
  AgentMessage.verify_signatures_calls (AgentMessage.get_signature self f).2 wallet
    = AgentMessage.verify_signatures_calls self wallet.
Proof.
  unfold AgentMessage.verify_signatures_calls, AgentMessage.get_signature,
    DecoratorSet.field.
  destruct (Dict.get f (DecoratorSet.fields (AgentMessage._decorators self)))
    as [fd|] eqn:Hf; simpl; [done|].
  apply get_None in Hf. rewrite (set_absent _ f []) by done.
  rewrite fmap_app. simpl. apply verify_loop_app_empty.
Qed.

(** X1. The signature that [set_signature] stores for a field is the one
    that [get_signature] returns for it afterwards; the signatures of the
    other fields, the global decorators, the id and the attributes are as
    before; and setting a signature twice leaves the same message as
    setting the second one only. *)
Theorem set_signature_get_signature self f s :
  (AgentMessage.get_signature (AgentMessage.set_signature self f s) f).1 = Some s
  ∧ (∀ g, g ≠ f →
       (AgentMessage.get_signature (AgentMessage.set_signature self f s) g).1
       = (AgentMessage.get_signature self g).1)
  ∧ DecoratorSet.decorators
      (AgentMessage._decorators (AgentMessage.set_signature self f s))
    = DecoratorSet.decorators (AgentMessage._decorators self)
  ∧ AgentMessage._id (AgentMessage.set_signature self f s) = AgentMessage._id self
  ∧ AgentMessage.attrs (AgentMessage.set_signature self f s)
    = AgentMessage.attrs self
  ∧ ∀ s', AgentMessage.set_signature (AgentMessage.set_signature self f s) f s'
          = AgentMessage.set_signature self f s'.
Proof.
  split_and!.
  - rewrite get_signature_stored. apply stored_set_signature_eq.
  - intros g Hne. rewrite !get_signature_stored.
    by apply stored_set_signature_ne.
  - unfold AgentMessage.set_signature, DecoratorSet.field.
    by destruct (Dict.get f (DecoratorSet.fields (AgentMessage._decorators self))).
  - unfold AgentMessage.set_signature. by destruct (DecoratorSet.field _ _).
  - unfold AgentMessage.set_signature. by destruct (DecoratorSet.field _ _).
  - intros s'. unfold AgentMessage.set_signature, DecoratorSet.field.
    destruct (Dict.get f (DecoratorSet.fields (AgentMessage._decorators self)))
      as [fd|] eqn:Hf; simpl; rewrite get_set_eq; simpl;
      unfold DecoratorSet.set_field, AgentMessage.with_decorators; simpl;
      by rewrite !set_set.
Qed.

(** X2. Looking a signature up changes no stored signature: after
    [get_signature], and after [verify_signed_field] whatever its outcome,
    every field has the signature it had and [verify_signatures] makes the
    same wallet calls with the same answer. *)
Theorem signature_lookup_keeps_signatures self f wallet signer_verkey :
  (∀ g, stored_signature
          (AgentMessage._decorators (AgentMessage.get_signature self f).2) g
        = stored_signature (AgentMessage._decorators self) g)
  ∧ (∀ g, stored_signature
            (AgentMessage._decorators
               (AgentMessage.verify_signed_field self f wallet signer_verkey).2) g
          = stored_signature (AgentMessage._decorators self) g)
  ∧ (∀ w, AgentMessage.verify_signatures_calls
            (AgentMessage.verify_signed_field self f wallet signer_verkey).2 w
          = AgentMessage.verify_signatures_calls self w).
Proof.
  assert ((AgentMessage.verify_signed_field self f wallet signer_verkey).2
          = (AgentMessage.get_signature self f).2) as Hstate.
  { unfold AgentMessage.verify_signed_field.
    by destruct (AgentMessage.get_signature self f). }
  rewrite Hstate. split_and!.
  - apply stored_get_signature.
  - apply stored_get_signature.
  - intros w. apply verify_get_signature.
Qed.

(** X3. When [getattr] finds no value under the name, [sign_field]
    raises and leaves the message as it was.  When it finds one,
    [sign_field] stores the signature it returns; when the wallet accepts
    the signatures it creates and they carry the signer they were created
    for, [verify_signed_field] with that signer then returns it. *)
Theorem sign_field_then_verify getattr self f signer_verkey wallet timestamp :
  (getattr self f = None →
     AgentMessage.sign_field getattr self f signer_verkey wallet timestamp
     = (Raise (BaseModelError
                 (AgentMessage.class_name (AgentMessage.class_of self)
                  +:+ " field has no value for signature: " +:+ f)), self))
  ∧ (∀ value,
       getattr self f = Some value →
       let sig := create value signer_verkey wallet timestamp in
       let signed :=
         AgentMessage.sign_field getattr self f signer_verkey wallet
           timestamp in
       signed.1 = Ok sig
       ∧ (AgentMessage.get_signature signed.2 f).1 = Some sig
       ∧ (verify sig wallet = true → signer sig = signer_verkey →
          (AgentMessage.verify_signed_field signed.2 f wallet
             (Some signer_verkey)).1 = Ok signer_verkey)).
Proof.
  split.
  - intros Hnone. unfold AgentMessage.sign_field. by rewrite Hnone.
  - intros value Hvalue sig signed. subst signed.
    unfold AgentMessage.sign_field. rewrite Hvalue. simpl. fold sig.
    split_and!; [done | |].
    + rewrite get_signature_stored. apply stored_set_signature_eq.
    + intros Hv Hs. rewrite verify_signed_field_unfold.
      rewrite stored_set_signature_eq, Hv. simpl.
      rewrite bool_decide_eq_false_2; [by rewrite Hs|].
      intros Hne. by apply Hne.
Qed.

(** X4. A stored signature that the wallet rejects is detected: after
    [set_signature] with such a signature, [verify_signatures] returns
    [False] and [verify_signed_field] for that field raises the
    verification error. *)
Theorem rejected_signature_detected self f s wallet signer_verkey :
  verify s wallet = false →
  AgentMessage.verify_signatures (AgentMessage.set_signature self f s) wallet
  = false
  ∧ (AgentMessage.verify_signed_field (AgentMessage.set_signature self f s) f
       wallet signer_verkey).1
    = Raise (BaseModelError ("Field signature verification failed: " +:+ f)).
Proof.
  intros Hv. split.
  - apply not_true_is_false. intros Htrue.
    unfold AgentMessage.verify_signatures, AgentMessage.verify_signatures_calls
      in Htrue.
    pose proof (stored_set_signature_eq self f s) as Hs.
    apply stored_signature_elem in Hs as (fd & Hin & Hsig).
    rewrite (proj1 (verify_loop_true wallet _) Htrue fd s) in Hv; [done| |done].
    apply list_elem_of_fmap. by exists (f, fd).
  - rewrite verify_signed_field_unfold, stored_set_signature_eq, Hv. done.
Qed.

Lemma verify_loop_calls wallet (values : list (Dict.t Decorator)) :
  let '(b, calls) := AgentMessage.verify_loop wallet values in
  calls `prefix_of` signatures_of values
  ∧ (b = true → calls = signatures_of values)
  ∧ (b = false →
     ∃ pre s, calls = pre ++ [s] ∧ verify s wallet = false
              ∧ ∀ s', s' ∈ pre → verify s' wallet = true).
Proof.
  induction values as [|fd rest IH]; simpl.
  - split_and!; [done | done | done].
  - unfold signatures_of. simpl.
    destruct (Dict.get "sig" fd) as [sig|] eqn:Hsig; [|exact IH].
    destruct (verify sig wallet) eqn:Hv; simpl.
    + destruct (AgentMessage.verify_loop wallet rest) as [b calls].
      destruct IH as (Hpre & Hall & Hfail). split_and!.
      * by apply prefix_cons.
      * intros Hb. by rewrite (Hall Hb).
      * intros Hb. destruct (Hfail Hb) as (pre & s & -> & Hs & Hpre').
        exists (sig :: pre), s. split_and!; [done | done |].
        intros s' [-> | Hin]%elem_of_cons; [done | by apply Hpre'].
    + split_and!.
      * by apply prefix_cons, prefix_nil.
      * done.
      * intros _. exists [], sig. split_and!; [done | done |].
        intros s' Hin. by apply elem_of_nil in Hin.
Qed.

(** X5. [verify_signatures] hands the wallet stored signatures only, in
    the order of the fields and each at most once: the calls are a prefix
    of the stored signatures.  When it returns [True] they are all of
    them; when it returns [False] the last call is a rejected signature
    and every call before it was accepted. *)
Theorem verify_signatures_calls_prefix self wallet :
  let values := (DecoratorSet.fields (AgentMessage._decorators self)).*2 in
  let calls := (AgentMessage.verify_signatures_calls self wallet).2 in
  calls `prefix_of` signatures_of values
  ∧ (AgentMessage.verify_signatures self wallet = true →
     calls = signatures_of values)
  ∧ (AgentMessage.verify_signatures self wallet = false →
     ∃ pre s, calls = pre ++ [s] ∧ verify s wallet = false
              ∧ ∀ s', s' ∈ pre → verify s' wallet = true).
Proof.
  intros values calls. subst values calls.
  unfold AgentMessage.verify_signatures, AgentMessage.verify_signatures_calls.
  pose proof (verify_loop_calls wallet
                (DecoratorSet.fields (AgentMessage._decorators self)).*2) as Hc.
  by destruct (AgentMessage.verify_loop wallet _) as [b calls].
Qed.

(** X6. The two verifiers agree: when [verify_signatures] returns [True],
    [verify_signed_field] without an expected signer returns the signer
    of every field that has a stored signature; and when
    [verify_signed_field] meets a stored signature that the wallet
    rejects, [verify_signatures] returns [False]. *)
Theorem verify_signatures_verify_signed_field self f sig wallet :
  stored_signature (AgentMessage._decorators self) f = Some sig →
  (AgentMessage.verify_signatures self wallet = true →
   (AgentMessage.verify_signed_field self f wallet None).1 = Ok (signer sig))
  ∧ (verify sig wallet = false →
     AgentMessage.verify_signatures self wallet = false).
Proof.
  intros Hs.
  assert (AgentMessage.verify_signatures self wallet = true →
          verify sig wallet = true) as Hall.
  { intros Htrue. destruct (stored_signature_elem _ _ _ Hs) as (fd & Hin & Hsig).
    apply (proj1 (verify_loop_true wallet _) Htrue fd sig); [|done].
    apply list_elem_of_fmap. by exists (f, fd). }
  split.
  - intros Htrue. rewrite verify_signed_field_unfold, Hs, (Hall Htrue). done.
  - intros Hv. apply not_true_is_false. intros Htrue.
    rewrite (Hall Htrue) in Hv. done.
Qed.
End signature_store.

Section thread_facts.
Context `{Models}.
Implicit Types (self msg : AgentMessage.t).

Lemma thread_assign_thread_id self t p :
  AgentMessage._thread (AgentMessage.assign_thread_id self t p)
  = Some (ThreadDecorator t p).
Proof.
  unfold AgentMessage.assign_thread_id, AgentMessage._thread_setter,
    AgentMessage._thread, DecoratorSet.get. simpl. apply get_set_eq.
Qed.

(** X7. A reply continues the thread of the message it answers: after
    [assign_thread_from], the thread id of the reply ([_thread_id]) is the
    thread id of that message, and its parent thread id is the one of that
    message's thread decorator, if any.  The thread decorator gives back
    the [thid] and [pthid] it was built with, and the message answered has
    a non-empty id. *)
Theorem thread_id_carried_forward self msg :
  (∀ t p, thid (ThreadDecorator t p) = t) →
  (∀ t p, pthid (ThreadDecorator t p) = p) →
  AgentMessage._id msg ≠ "" →
  let reply := AgentMessage.assign_thread_from self (Some msg) in
  AgentMessage._thread_id reply = AgentMessage._thread_id msg
  ∧ ∃ thread,
      AgentMessage._thread reply = Some thread
      ∧ pthid thread =
          match AgentMessage._thread msg with
          | Some previous => pthid previous
          | None => None
          end.
Proof.
  intros Hthid Hpthid Hid reply. subst reply.
  unfold AgentMessage.assign_thread_from, AgentMessage._thread_id.
  rewrite thread_assign_thread_id, Hthid.
  split; [|eexists; split; [reflexivity | by rewrite Hpthid]].
  destruct (AgentMessage._thread msg) as [previous|].
  - destruct (truthy (thid previous)) eqn:Htruthy.
    + by rewrite Htruthy.
    + simpl. by rewrite bool_decide_eq_true_2.
  - simpl. by rewrite bool_decide_eq_true_2.
Qed.

(** X8. Assigning a thread touches the thread decorator only: after
    [assign_thread_id], and so after [assign_thread_from], the per-field
    decorators (the signatures among them), the other global decorators,
    the id and the attributes are as before; and of two assignments in a
    row only the second one shows. *)
Theorem assign_thread_keeps_the_rest self (t p : option string) :
  let self' := AgentMessage.assign_thread_id self t p in
  DecoratorSet.fields (AgentMessage._decorators self')
  = DecoratorSet.fields (AgentMessage._decorators self)
  ∧ (∀ name, name ≠ "thread" →
       DecoratorSet.get name (AgentMessage._decorators self')
       = DecoratorSet.get name (AgentMessage._decorators self))
  ∧ AgentMessage._id self' = AgentMessage._id self
  ∧ AgentMessage.attrs self' = AgentMessage.attrs self
  ∧ (∀ previous : option AgentMessage.t,
       DecoratorSet.fields
         (AgentMessage._decorators
            (AgentMessage.assign_thread_from self previous))
       = DecoratorSet.fields (AgentMessage._decorators self))
  ∧ (∀ t' p',
       AgentMessage.assign_thread_id self' t' p'
       = AgentMessage.assign_thread_id self t' p').
Proof.
  intros self'. subst self'. split_and!; try reflexivity.
  - intros name Hne.
    unfold AgentMessage.assign_thread_id, AgentMessage._thread_setter,
      DecoratorSet.get. simpl. by apply get_set_ne.
  - intros [previous|]; reflexivity.
  - intros t' p'.
    unfold AgentMessage.assign_thread_id, AgentMessage._thread_setter,
      AgentMessage.with_decorators, DecoratorSet.set. simpl.
    by rewrite set_set.
Qed.

Lemma apply_keeps_class getattr (o : AgentMessage.operation) self :
  AgentMessage.class_of (AgentMessage.apply getattr o self)
  = AgentMessage.class_of self.
Proof.
  destruct o as [| | f | f s | f k w ts | f w k | | | msg |]; simpl;
    try reflexivity.
  - unfold AgentMessage.get_signature.
    by destruct (DecoratorSet.field _ _).
  - unfold AgentMessage.set_signature.
    by destruct (DecoratorSet.field _ _).
  - unfold AgentMessage.sign_field.
    destruct (getattr self f); simpl; [|done].
    unfold AgentMessage.set_signature. by destruct (DecoratorSet.field _ _).
  - unfold AgentMessage.verify_signed_field, AgentMessage.get_signature.
    by destruct (DecoratorSet.field _ _).
  - by destruct msg.
Qed.

(** X9. A message that [__init__] returns is of the class it was asked
    for, and that class has a schema class and a non-empty type, which
    [_type] returns.  It has the attributes it was given.  Its decorator
    set is the one it was given when that set holds a global decorator;
    a set that holds none, whatever its per-field decorators, is replaced
    by a new empty set, as is a missing one.  When the generated id is
    non-empty, so is the id.  No operation changes the type afterwards,
    the [_id] setter included. *)
Theorem constructed_message_invariants (cls : AgentMessage.kind)
    (attributes : Dict.t Value) (uuid4 : string) (_id : option string)
    (decorators : option DecoratorSet.t) self :
  AgentMessage.__init__ cls attributes uuid4 _id decorators = Ok self →
  AgentMessage.class_of self = cls
  ∧ declared_truthy (AgentMessage.schema_class (AgentMessage.meta cls)) = true
  ∧ (∃ type, AgentMessage._type self = Ok (Some type) ∧ type ≠ "")
  ∧ AgentMessage.attrs self = attributes
  ∧ (∀ given, decorators = Some given →
       AgentMessage._decorators self =
         if bool_decide (DecoratorSet.decorators given = [])
         then DecoratorSet.new else given)
  ∧ (decorators = None → AgentMessage._decorators self = DecoratorSet.new)
  ∧ (uuid4 ≠ "" → AgentMessage._id self ≠ "")
  ∧ ∀ getattr (ops : list AgentMessage.operation),
      AgentMessage._type
        (foldl (λ m o, AgentMessage.apply getattr o m) self ops)
      = AgentMessage._type self.
Proof.
  intros (Hschema & Htype & ->)%init_returned.
  split_and!; try done.
  - unfold AgentMessage._type. simpl.
    destruct (AgentMessage.message_type _) as [|[type|]]; try done.
    exists type. split; [done|]. simpl in Htype.
    by apply bool_decide_eq_true in Htype.
  - intros given ->. simpl. unfold DecoratorSet.truthy.
    by destruct (DecoratorSet.decorators given).
  - by intros ->.
  - intros Huuid. simpl. destruct _id as [supplied|]; [|done].
    case_bool_decide; done.
  - intros getattr ops.
    generalize (constructed cls attributes uuid4 _id decorators).
    induction ops as [|o ops IH]; intros m; simpl; [done|].
    rewrite IH. unfold AgentMessage._type. by rewrite apply_keeps_class.
Qed.
End thread_facts.

(** * Further properties of the load side *)

Section load_shape.
Context `{Models}.
Implicit Types (expect : list string) (fields : Dict.t (Dict.t Decorator))
  (found : Dict.t Decorator) (processed : Dict.t Value).

(** The first loop appends the decoded values after the entries of the
    plain map and leaves those entries alone. *)
Lemma found_loop_shape expect fields found processed found' processed' :
  AgentMessageSchema.found_loop expect fields found processed
    = Ok (found', processed') →
  Dict.keys processed' = Dict.keys processed ++ signed_names fields
  ∧ ∀ k, k ∈ Dict.keys processed → Dict.get k processed' = Dict.get k processed.
Proof.
  revert found processed.
  induction fields as [|[name field] rest IH]; intros found processed; simpl.
  - intros [= <- <-]. by rewrite app_nil_r.
  - unfold signed_names. simpl.
    destruct (Dict.get "sig" field) as [sig|] eqn:Hsig; [|apply IH].
    case_bool_decide; [done|].
    destruct (Dict.mem name processed) eqn:Hmem; [done|].
    apply mem_false in Hmem.
    intros [Hkeys Hget]%IH. split.
    + rewrite Hkeys, keys_set, (proj2 (mem_false name processed)) by done.
      by rewrite <- app_assoc.
    + intros k Hk. rewrite Hget by (apply elem_keys_set; by right).
      apply get_set_ne. by intros ->.
Qed.

(** X10. When the pre-load hook returns, the map it hands to the field
    schema is the plain map of the extraction, every entry untouched and
    in place, followed by one entry per field that holds a signature, in
    the order of the fields; the schema instance keeps the extracted
    decorators and is otherwise as before. *)
Theorem pre_load_appends_decoded_values (self self' : AgentMessageSchema.t)
    (data processed processed' : Dict.t Value) (decorators : DecoratorSet.t) :
  DecoratorSet.extract_decorators (AgentMessageSchema._decorators self) data
    = Ok (processed, decorators) →
  AgentMessageSchema.extract_decorators self data = Ok (processed', self') →
  Dict.keys processed' =
    Dict.keys processed ++ signed_names (DecoratorSet.fields decorators)
  ∧ (∀ k, k ∈ Dict.keys processed →
          Dict.get k processed' = Dict.get k processed)
  ∧ AgentMessageSchema._decorators self' = decorators
  ∧ AgentMessageSchema.class_of self' = AgentMessageSchema.class_of self
  ∧ AgentMessageSchema._signatures self' = AgentMessageSchema._signatures self
  ∧ AgentMessageSchema._decorators_dict self'
    = AgentMessageSchema._decorators_dict self.
Proof.
  intros Hext Hhook. unfold AgentMessageSchema.extract_decorators in Hhook.
  rewrite Hext in Hhook. simpl in Hhook.
  unfold AgentMessageSchema.check_signed_fields in Hhook.
  destruct (AgentMessageSchema.found_loop _ _ [] processed)
    as [[found p']|e] eqn:Hloop; [|done]. simpl in Hhook.
  destruct (AgentMessageSchema.expect_loop _ found) as [[]|e]; [|done].
  simpl in Hhook. injection Hhook as <- <-.
  destruct (found_loop_shape _ _ _ _ _ _ Hloop) as [Hkeys Hget].
  split_and!; done.
Qed.

Section load_pipeline.
Variable fields_load : Dict.t Value → result (option string * Dict.t Value).

(** X11. A message that [load] returns holds a signature for exactly the
    fields of the signed-fields policy, and its decorators are the ones
    extracted from the wire map. *)
Theorem loaded_message_signed_as_policy (self : AgentMessageSchema.t)
    (cls : AgentMessage.kind) (uuid4 : string) (data : Dict.t Value)
    (obj : AgentMessage.t) :
  Dict.wf (DecoratorSet.fields (AgentMessageSchema._decorators self)) →
  AgentMessageSchema.load fields_load self cls uuid4 data = Ok obj →
  (∀ f, is_Some (stored_signature (AgentMessage._decorators obj) f) ↔
        f ∈ AgentMessageSchema.expect_fields self)
  ∧ ∃ processed,
      DecoratorSet.extract_decorators (AgentMessageSchema._decorators self) data
      = Ok (processed, AgentMessage._decorators obj).
Proof.
  intros Hwf Hload.
  unfold AgentMessageSchema.load, AgentMessageSchema.extract_decorators in Hload.
  destruct (DecoratorSet.extract_decorators _ data)
    as [[processed decorators]|e] eqn:Hext; [|done]. simpl in Hload.
  pose proof (extract_loop_wf _ _ _ _ _ Hwf Hext) as Hwf'.
  pose proof (check_signed_fields_spec (AgentMessageSchema.expect_fields self)
                decorators processed Hwf') as Hcheck.
  destruct (AgentMessageSchema.check_signed_fields _ decorators processed)
    as [processed'|e]; [|done]. simpl in Hload.
  destruct (fields_load processed') as [[_id attributes]|e]; [|done].
  simpl in Hload.
  destruct (AgentMessage.__init__ cls attributes uuid4 _id None)
    as [obj0|e]; [|done]. simpl in Hload. injection Hload as <-.
  simpl. destruct Hcheck as [Hsigned Hexpect]. split; [|by exists processed].
  intros f. split.
  - intros [sig Hs]. by destruct (Hsigned f sig Hs).
  - intros Hf. destruct (Hexpect f Hf) as (sig & -> & _). eauto.
Qed.
End load_pipeline.
End load_shape.

(** * Further properties of the dump side *)

Section dump_value_facts.
Context `{Models}.
Implicit Types (fields : Dict.t (Dict.t Decorator))
  (signatures data out : Dict.t Value).

(** The side table maps each field that holds a signature to the
    serialized signature. *)
Lemma signatures_loop_get fields (acc : Dict.t Value) f :
  Dict.wf fields →
  Dict.get f (AgentMessageSchema.signatures_loop fields acc).1 =
    match Dict.get f fields with
    | Some fd =>
        match Dict.get "sig" fd with
        | Some sig => Some (serialize sig)
        | None => Dict.get f acc
        end
    | None => Dict.get f acc
    end.
Proof.
  unfold Dict.wf. revert acc.
  induction fields as [|[n fd] rest IH]; intros acc Hwf; simpl; [done|].
  apply NoDup_cons in Hwf as [Hn Hwf].
  destruct (Dict.get "sig" fd) as [sig|] eqn:Hsig.
  - specialize (IH (Dict.set n (serialize sig) acc) Hwf).
    destruct (AgentMessageSchema.signatures_loop rest _) as [s r].
    simpl in *. rewrite IH. case_decide as Hf.
    + subst. rewrite (proj2 (get_None n rest)) by done.
      by rewrite Hsig, get_set_eq.
    + destruct (Dict.get f rest) as [fd'|]; [|by apply get_set_ne].
      destruct (Dict.get "sig" fd'); [done | by apply get_set_ne].
  - specialize (IH acc Hwf).
    destruct (AgentMessageSchema.signatures_loop rest _) as [s r].
    simpl in *. rewrite IH. case_decide as Hf; [|done].
    subst. rewrite (proj2 (get_None n rest)) by done. by rewrite Hsig.
Qed.

(** The replacement puts every serialized signature under its signature
    key and keeps the value of every other key. *)
Lemma replace_loop_get signatures data out :
  AgentMessageSchema.replace_loop signatures data = Ok out →
  Dict.wf signatures →
  (∀ f, f ∈ Dict.keys signatures → DecoratorSet.has_marker f = false) →
  (∀ f v, Dict.get f signatures = Some v →
          Dict.get (sig_key f) out = Some v)
  ∧ (∀ k, k ∉ Dict.keys signatures →
          (∀ f, f ∈ Dict.keys signatures → k ≠ sig_key f) →
          Dict.get k out = Dict.get k data).
Proof.
  unfold Dict.wf. revert data.
  induction signatures as [|[f sig] rest IH]; intros data Hout Hwf Hun;
    simpl in *.
  - injection Hout as <-. split; [done|]. done.
  - apply NoDup_cons in Hwf as [Hf Hwf]. unfold Dict.del in Hout.
    destruct (Dict.mem f data); [|done]. simpl in Hout.
    apply IH in Hout as [Hsigs Hkeep]; [|done|].
    + split.
      * intros g v. case_decide as Hg.
        -- intros [= <-]. subst g. rewrite Hkeep.
           ++ apply get_set_eq.
           ++ intros Hbad.
              assert (DecoratorSet.has_marker (sig_key f) = false) as Hm
                by (apply Hun; by right).
              by rewrite has_marker_sig_key in Hm.
           ++ intros h Hh Heq.
              apply sig_key_inj in Heq;
                [by subst | apply Hun; left | apply Hun; by right].
        -- apply Hsigs.
      * intros k [Hkf Hk]%not_elem_of_cons Hne.
        rewrite Hkeep; [| done | intros h Hh; apply Hne; by right].
        rewrite get_set_ne by (apply Hne; left).
        by apply get_remove_ne.
    + intros g Hg. apply Hun. by right.
Qed.

(** When every signed field is a key of the map, the replacement
    returns. *)
Lemma replace_loop_returns signatures data :
  Dict.wf signatures →
  (∀ f, f ∈ Dict.keys signatures → f ∈ Dict.keys data) →
  ∃ out, AgentMessageSchema.replace_loop signatures data = Ok out.
Proof.
  unfold Dict.wf. revert data.
  induction signatures as [|[f sig] rest IH]; intros data Hwf Hin; simpl.
  - eauto.
  - apply NoDup_cons in Hwf as [Hf Hwf]. unfold Dict.del.
    rewrite (proj2 (mem_true f data)) by (apply Hin; left). simpl.
    apply IH; [done|]. intros g Hg. apply elem_keys_set. right.
    apply elem_keys_remove. split; [by intros -> | apply Hin; by right].
Qed.

(** [dump_decorators] gives every decorator key the value of the
    decorator map. *)
Lemma dump_decorators_get_decorator (self : AgentMessageSchema.t)
    (data decorators_dict : Dict.t Value) :
  AgentMessageSchema._decorators_dict self = Some decorators_dict →
  Dict.wf data → Dict.wf decorators_dict →
  (∀ k, k ∈ Dict.keys data → k ∉ Dict.keys decorators_dict) →
  ∃ out, AgentMessageSchema.dump_decorators self data = Ok out
         ∧ ∀ k, k ∈ Dict.keys decorators_dict →
                Dict.get k out = Dict.get k decorators_dict.
Proof.
  intros Hdd Hwf Hwfd Hdis. unfold AgentMessageSchema.dump_decorators.
  destruct (reserved_loop_spec data) as (result & -> & _).
  rewrite Hdd. eexists. split; [reflexivity|]. intros k Hk.
  rewrite get_update by (by apply wf_remove, wf_remove).
  rewrite get_update by done.
  rewrite (proj2 (get_None k (Dict.remove "@id" (Dict.remove "@type" data)))).
  - apply get_is_Some in Hk as [v ->]. done.
  - intros [_ [_ Hin]%elem_keys_remove]%elem_keys_remove. by apply (Hdis k).
Qed.
End dump_value_facts.

Section dump_value_theorems.
Context `{Models}.
Variable fields_dump : AgentMessage.t → result (Dict.t Value).

(** X12. The values of a dump that returns: every field with a stored
    signature has, under its [<field>~sig] key, the serialization of that
    signature; every key of the field schema's map other than the signed
    fields keeps its value; every decorator key has the value that the
    decorator snapshot gives it.  Signed field names are ordinary names
    and the field schema emits no key with the decorator marker. *)
Theorem dump_values (self : AgentMessageSchema.t) (obj : AgentMessage.t)
    (data out : Dict.t Value) :
  let decorators := AgentMessage._decorators obj in
  let signed := signed_names (DecoratorSet.fields decorators) in
  Dict.wf (DecoratorSet.fields decorators) →
  (∀ f, f ∈ signed → f ≠ "" ∧ DecoratorSet.has_marker f = false) →
  fields_dump obj = Ok data →
  Dict.wf data →
  (∀ k, k ∈ Dict.keys data → DecoratorSet.has_marker k = false) →
  AgentMessageSchema.dump fields_dump self obj = Ok out →
  (∀ f sig, stored_signature decorators f = Some sig →
            Dict.get (sig_key f) out = Some (serialize sig))
  ∧ (∀ k, k ∈ Dict.keys data → k ∉ signed →
          Dict.get k out = Dict.get k data)
  ∧ (∀ k, k ∈ Dict.keys (DecoratorSet.to_dict (dump_snapshot decorators)) →
          Dict.get k out
          = Dict.get k (DecoratorSet.to_dict (dump_snapshot decorators))).
Proof.
  intros decorators signed Hwf Hsigned Hdata Hwfd Hplain Hdump.
  unfold AgentMessageSchema.dump in Hdump.
  destruct (AgentMessageSchema.check_dump_decorators self obj)
    as [[obj' self']|e] eqn:Hpre; [|done]. simpl in Hdump.
  destruct (check_dump_decorators_state self self' obj obj' Hwf Hpre)
    as (-> & Hdd & Hsigs).
  assert (∀ f, Dict.get f (AgentMessageSchema._signatures self') =
               match stored_signature decorators f with
               | Some sig => Some (serialize sig)
               | None => None
               end) as Hside.
  { intros f. unfold AgentMessageSchema.check_dump_decorators in Hpre.
    unfold DecoratorSet.copy in Hpre.
    pose proof (signatures_loop_get
                  (DecoratorSet.fields (AgentMessage._decorators obj)) [] f Hwf)
      as Hget.
    destruct (AgentMessageSchema.signatures_loop _ []) as [signatures fields'].
    simpl in *.
    destruct (AgentMessageSchema.missing_loop _ signatures) as [[]|e];
      simpl in Hpre; [|done].
    injection Hpre as <-. simpl. rewrite Hget. unfold stored_signature.
    fold decorators.
    destruct (Dict.get f (DecoratorSet.fields decorators)) as [fd|]; [|done].
    by destruct (Dict.get "sig" fd). }
  rewrite Hdata in Hdump. simpl in Hdump.
  set (dd := DecoratorSet.to_dict (dump_snapshot decorators)) in *.
  assert (Dict.wf dd) as Hwfdd by (apply wf_update; constructor).
  assert (∀ k, k ∈ Dict.keys dd → DecoratorSet.has_marker k = true) as Hmarked.
  { intros k. apply to_dict_marked. }
  destruct (dump_decorators_get self' data dd Hdd Hwfd Hwfdd Hmarked)
    as (out1 & Hout1 & _ & Hget1).
  destruct (dump_decorators_get_decorator self' data dd Hdd Hwfd Hwfdd)
    as (out1' & Hout1' & Hget1').
  { intros k Hk%Hplain Hd%Hmarked. congruence. }
  rewrite Hout1 in Hout1'. injection Hout1' as <-.
  rewrite Hout1 in Hdump. simpl in Hdump.
  unfold AgentMessageSchema.replace_signatures in Hdump.
  apply replace_loop_get in Hdump as [Hsig Hkeep].
  - split_and!.
    + intros f sig Hs. apply Hsig. by rewrite Hside, Hs.
    + intros k Hk Hns. rewrite Hkeep.
      * apply Hget1. by apply Hplain.
      * by rewrite Hsigs.
      * intros f _ ->. apply Hplain in Hk.
        by rewrite has_marker_sig_key in Hk.
    + intros k Hk. rewrite Hkeep; [by apply Hget1' | |].
      * rewrite Hsigs. intros Hs. destruct (Hsigned k Hs) as [_ Hun].
        apply Hmarked in Hk. congruence.
      * rewrite Hsigs. intros f Hf ->. destruct (Hsigned f Hf) as [Hne Hun].
        by apply (snapshot_no_sig_key decorators f).
  - unfold Dict.wf. rewrite Hsigs. by apply signed_names_NoDup.
  - rewrite Hsigs. intros f Hf. by destruct (Hsigned f Hf).
Qed.

(** X13. When the field schema returns a plain map, the dump returns
    exactly when every field of the policy has a stored signature and
    every field with a stored signature is a key of that map.  Signed
    field names hold no decorator marker. *)
Theorem dump_returns_iff (self : AgentMessageSchema.t) (obj : AgentMessage.t)
    (data : Dict.t Value) :
  let decorators := AgentMessage._decorators obj in
  Dict.wf (DecoratorSet.fields decorators) →
  (∀ f, is_Some (stored_signature decorators f) →
        DecoratorSet.has_marker f = false) →
  fields_dump obj = Ok data →
  (∃ out, AgentMessageSchema.dump fields_dump self obj = Ok out) ↔
    (∀ p, p ∈ AgentMessageSchema.expect_fields self →
          is_Some (stored_signature decorators p))
    ∧ (∀ f, is_Some (stored_signature decorators f) → f ∈ Dict.keys data).
Proof.
  intros decorators Hwf Hun Hdata. subst decorators.
  set (decorators := AgentMessage._decorators obj) in *.
  pose proof (check_dump_decorators_spec self obj Hwf) as Hspec.
  unfold AgentMessageSchema.dump.
  destruct (AgentMessageSchema.check_dump_decorators self obj)
    as [[obj' self']|e] eqn:Hpre; simpl.
  - destruct (check_dump_decorators_state self self' obj obj' Hwf Hpre)
      as (-> & Hdd & Hsigs).
    destruct Hspec as (_ & _ & _ & Hpolicy).
    rewrite Hdata. simpl.
    destruct (dump_decorators_elem self' data _ Hdd) as (out1 & -> & Hk1).
    simpl. unfold AgentMessageSchema.replace_signatures.
    assert (Dict.wf (AgentMessageSchema._signatures self')) as Hwfs.
    { unfold Dict.wf. rewrite Hsigs. by apply signed_names_NoDup. }
    split.
    + intros [out Hout]. split; [exact Hpolicy|]. intros f Hf.
      destruct (decide (f ∈ Dict.keys data)) as [?|Hnot]; [done|].
      destruct (replace_loop_missing (AgentMessageSchema._signatures self')
                  out1 f Hwfs) as (g & Hraise & _); try congruence.
      * rewrite Hsigs. by apply signed_names_stored.
      * by apply Hun.
      * rewrite Hk1. intros [? | Hd%to_dict_marked]; [done|].
        rewrite (Hun f Hf) in Hd. done.
    + intros [_ Hall]. apply replace_loop_returns; [done|].
      rewrite Hsigs. intros f Hf%signed_names_stored; [|done].
      apply Hk1. left. by apply Hall.
  - destruct Hspec as (f & Hf & Hnone & _). split; [by intros [out ?]|].
    intros [Hpolicy _]. destruct (Hpolicy f Hf) as [sig Hs].
    unfold decorators in Hs. congruence.
Qed.
End dump_value_theorems.

(** * Signed fields through dump and the pre-load hook *)

Section signed_round_trip_facts.
Context `{Models}.
Implicit Types (decorators : DecoratorSet.t).



End signed_round_trip_facts.

Section signed_round_trip.
Context `{Models}.
Variable fields_dump : AgentMessage.t → result (Dict.t Value).



End signed_round_trip.

Section further_runs.
Import Sample SampleSchema.

Local Ltac by_computation :=
  apply (bool_decide_eq_true_1 _); vm_compute; reflexivity.

(** X1, witness.
    Replacing the signature of [other] on [signed_message] leaves the
    signature of [value] as it was. *)
Lemma set_signature_get_signature_witness :
  "value" ≠ "other"
  ∧ (AgentMessage.get_signature
       (AgentMessage.set_signature signed_message "other" (Sig "K4" "o" true))
       "value").1
    = (AgentMessage.get_signature signed_message "value").1.
Proof.
  assert ("value" ≠ "other") as Hne by by_computation.
  split; [exact Hne|].
  apply (proj1 (proj2 (set_signature_get_signature (H := models)
                         signed_message "other" (Sig "K4" "o" true)))
           "value" Hne).
Defined.

(** X3, witness.
    Signing [content] on [plain_message] as ["K"] and verifying it with
    that signer. *)
Lemma sign_field_then_verify_witness :
  getattr plain_message "content" = Some (Str "hello")
  ∧ verify (create (Str "hello") "K" tt None) tt = true
  ∧ signer (create (Str "hello") "K" tt None) = "K"
  ∧ (AgentMessage.verify_signed_field
       (AgentMessage.sign_field getattr plain_message "content" "K" tt
          None).2
       "content" tt (Some "K")).1 = Ok "K".
Proof.
  split; [reflexivity|]. split; [reflexivity|]. split; [reflexivity|].
  apply (proj2 (proj2 (proj2 (sign_field_then_verify (H := models) getattr
                                plain_message "content" "K" tt None)
                         (Str "hello") eq_refl))
           eq_refl eq_refl).
Defined.

(** X4, witness.
    A rejected signature stored on [plain_message]. *)
Lemma rejected_signature_detected_witness :
  verify (Sig "K" "c" false) tt = false
  ∧ AgentMessage.verify_signatures
      (AgentMessage.set_signature plain_message "content" (Sig "K" "c" false)) tt
    = false.
Proof.
  split; [reflexivity|].
  apply (proj1 (rejected_signature_detected (H := models) plain_message
                  "content" (Sig "K" "c" false) tt None eq_refl)).
Defined.

(** X5, witness.
    [signed_message] holds a rejected signature: the calls end with
    it. *)
Lemma verify_signatures_calls_prefix_witness :
  AgentMessage.verify_signatures signed_message tt = false
  ∧ ∃ pre s,
      (AgentMessage.verify_signatures_calls signed_message tt).2 = pre ++ [s]
      ∧ verify s tt = false
      ∧ ∀ s', s' ∈ pre → verify s' tt = true.
Proof.
  split; [reflexivity|].
  apply (proj2 (proj2 (verify_signatures_calls_prefix (H := models)
                         signed_message tt)) eq_refl).
Defined.

(** X6, witness.
    The signature of [other] on [signed_message] is rejected. *)
Lemma verify_signatures_verify_signed_field_witness :
  stored_signature (AgentMessage._decorators signed_message) "other"
    = Some (Sig "K2" "o" false)
  ∧ verify (Sig "K2" "o" false) tt = false
  ∧ AgentMessage.verify_signatures signed_message tt = false.
Proof.
  split; [reflexivity|]. split; [reflexivity|].
  apply (proj2 (verify_signatures_verify_signed_field (H := models)
                  signed_message "other" (Sig "K2" "o" false) tt eq_refl)
           eq_refl).
Defined.

(** X7, witness.
    [plain_message] as a reply to [signed_message], whose thread is
    [{thid: "T", pthid: "P"}]. *)
Lemma thread_id_carried_forward_witness :
  AgentMessage._id signed_message ≠ ""
  ∧ AgentMessage._thread_id
      (AgentMessage.assign_thread_from plain_message (Some signed_message))
    = AgentMessage._thread_id signed_message.
Proof.
  assert (AgentMessage._id signed_message ≠ "") as Hid by by_computation.
  split; [exact Hid|].
  apply (proj1 (thread_id_carried_forward (H := models) plain_message
                  signed_message (λ t p, eq_refl) (λ t p, eq_refl) Hid)).
Defined.

(** X8, witness.
    Assigning a thread to [signed_message] and reading another
    decorator. *)
Lemma assign_thread_keeps_the_rest_witness :
  "trace" ≠ "thread"
  ∧ DecoratorSet.get "trace"
      (AgentMessage._decorators
         (AgentMessage.assign_thread_id signed_message (Some "T2") None))
    = DecoratorSet.get "trace" (AgentMessage._decorators signed_message).
Proof.
  assert ("trace" ≠ "thread") as Hne by by_computation.
  split; [exact Hne|].
  apply (proj1 (proj2 (assign_thread_keeps_the_rest (H := models)
                         signed_message (Some "T2") None))
           "trace" Hne).
Defined.

(** X9, witness.
    A message built without an id when [uuid4] yields ["uuid-1"], from a
    decorator set that holds a signature and no global decorator. *)
Lemma constructed_message_invariants_witness :
  AgentMessage.__init__ basic_kind hello_attrs "uuid-1" None
    (Some signed_wire_decorators) = Ok fresh_message
  ∧ "uuid-1" ≠ ""
  ∧ AgentMessage._id fresh_message ≠ ""
  ∧ AgentMessage._decorators fresh_message = DecoratorSet.new.
Proof.
  assert ("uuid-1" ≠ "") as Hne by by_computation.
  split; [reflexivity|]. split; [exact Hne|].
  destruct (constructed_message_invariants (H := models) basic_kind
              hello_attrs "uuid-1" None (Some signed_wire_decorators)
              fresh_message eq_refl)
    as (_ & _ & _ & _ & Hgiven & _ & Hid & _).
  split; [exact (Hid Hne)|].
  exact (Hgiven signed_wire_decorators eq_refl).
Defined.

(** X10, witness.
    The pre-load hook on [signed_wire] under the policy [("value",)]. *)
Lemma pre_load_appends_decoded_values_witness :
  DecoratorSet.extract_decorators
    (AgentMessageSchema._decorators (schema (Some ["value"]))) signed_wire
    = Ok (signed_wire_plain, signed_wire_decorators)
  ∧ AgentMessageSchema.extract_decorators (schema (Some ["value"])) signed_wire
    = Ok (signed_wire_processed,
          AgentMessageSchema.mk (schema_kind (Some ["value"]))
            signed_wire_decorators None [])
  ∧ Dict.keys signed_wire_processed =
      Dict.keys signed_wire_plain
      ++ signed_names (DecoratorSet.fields signed_wire_decorators).
Proof.
  split; [reflexivity|]. split; [reflexivity|].
  apply (proj1 (pre_load_appends_decoded_values (H := models)
                  (schema (Some ["value"]))
                  (AgentMessageSchema.mk (schema_kind (Some ["value"]))
                     signed_wire_decorators None [])
                  signed_wire signed_wire_plain signed_wire_processed
                  signed_wire_decorators eq_refl eq_refl)).
Defined.

(** X11, witness.
    Loading [signed_wire] under the policy [("value",)] gives
    [value_signed_message]. *)
Lemma loaded_message_signed_as_policy_witness :
  AgentMessageSchema.load fields_load (schema (Some ["value"])) basic_kind
    "uuid-1" signed_wire = Ok value_signed_message
  ∧ ∀ f, is_Some (stored_signature
                    (AgentMessage._decorators value_signed_message) f)
         ↔ f ∈ AgentMessageSchema.expect_fields (schema (Some ["value"])).
Proof.
  split; [reflexivity|].
  apply (proj1 (loaded_message_signed_as_policy (H := models) fields_load
                  (schema (Some ["value"])) basic_kind "uuid-1" signed_wire
                  value_signed_message (NoDup_nil_2 : Dict.wf [])
                  eq_refl)).
Defined.

(** X12, witness.
    The dump of [value_signed_message] holds the signature of [value]
    under [value~sig]. *)
Lemma dump_values_witness :
  AgentMessageSchema.dump fields_dump (schema (Some ["value"]))
    value_signed_message = Ok signed_wire
  ∧ Dict.get (sig_key "value") signed_wire
    = Some (serialize (Sig "K" "v" true)).
Proof.
  split; [reflexivity|].
  apply (proj1 (dump_values (H := models) fields_dump
                  (schema (Some ["value"])) value_signed_message
                  value_signed_plain signed_wire
                  ltac:(by_computation)
                  ltac:(apply Forall_forall; by_computation)
                  eq_refl
                  ltac:(by_computation)
                  ltac:(apply Forall_forall; by_computation)
                  eq_refl)
           "value" (Sig "K" "v" true) eq_refl).
Defined.

(** X13, witness.
    The dump of [value_signed_message] returns, so every field with a
    stored signature is a key of the field schema's map. *)
Lemma dump_returns_iff_witness :
  fields_dump value_signed_message = Ok value_signed_plain
  ∧ (∃ out, AgentMessageSchema.dump fields_dump (schema (Some ["value"]))
              value_signed_message = Ok out)
  ∧ ∀ f, is_Some (stored_signature
                    (AgentMessage._decorators value_signed_message) f) →
         f ∈ Dict.keys value_signed_plain.
Proof.
  assert (∃ out, AgentMessageSchema.dump fields_dump (schema (Some ["value"]))
                   value_signed_message = Ok out) as Hout
    by (by exists signed_wire).
  split; [reflexivity|]. split; [exact Hout|].
  refine (proj2 (proj1 (dump_returns_iff (H := models) fields_dump
                          (schema (Some ["value"])) value_signed_message
                          value_signed_plain _ _ eq_refl) Hout)).
  - by_computation.
  - intros f Hf.
    apply (signed_names_stored (H := models)) in Hf; [|by_computation].
    revert f Hf. apply Forall_forall. by_computation.
Defined.

End further_runs.
